(** * The OpenAI / OpenClaw LLM service adapter of mailroom

    A shallow embedding of [services/llm/openai/service.go] in its two
    revisions: the current one (multi-turn expansion, optional endpoint) and
    the earlier one kept under its original path, whose message builder always
    appends the raw input as a user message.

    Go strings are byte sequences: they are [string] here, one [ascii] per
    byte.  The pieces of the Go standard library the adapter calls
    ([strings.TrimSpace], [strings.HasPrefix], [encoding/json.Unmarshal],
    [errors.As]) are modelled in the modules [utf8], [strings], [json] and
    [errors] below. *)

Set Warnings "-register-all".
From Stdlib Require Import ZArith QArith Ascii String List Bool Lia.
From stdpp Require Import base gmap strings.
Import ListNotations.
Local Open Scope string_scope.
Local Open Scope list_scope.
Local Open Scope Z_scope.

(** ** Bytes *)

Definition byte := Z.

Definition byte_of_ascii (a : ascii) : byte := Z.of_N (N_of_ascii a).
Definition ascii_of_byte (b : byte) : ascii := ascii_of_N (Z.to_N b).

Definition bytes_of_string (s : string) : list byte :=
  List.map byte_of_ascii (list_ascii_of_string s).
Definition string_of_bytes (p : list byte) : string :=
  string_of_list_ascii (List.map ascii_of_byte p).

(** [p[i]] with Go's zero value out of range (the callers below only index
    in range). *)
Definition at_index (p : list byte) (i : Z) : byte :=
  if i <? 0 then 0 else List.nth (Z.to_nat i) p 0.

Definition slice_from (p : list byte) (i : Z) : list byte :=
  List.skipn (Z.to_nat i) p.
Definition slice_to (p : list byte) (i : Z) : list byte :=
  List.firstn (Z.to_nat i) p.

Definition len (p : list byte) : Z := Z.of_nat (List.length p).

(** ** unicode/utf8 *)

Module utf8.

Definition RuneError : Z := 0xFFFD.
Definition RuneSelf : Z := 0x80.
Definition UTFMax : Z := 4.
Definition MaxRune : Z := 0x10FFFF.
Definition surrogateMin : Z := 0xD800.
Definition surrogateMax : Z := 0xDFFF.

Definition locb : Z := 0x80.
Definition hicb : Z := 0xBF.
Definition maskx : Z := 0x3F.
Definition mask2 : Z := 0x1F.
Definition mask3 : Z := 0x0F.
Definition mask4 : Z := 0x07.

(** What the table [first] says about a leading byte. *)
Inductive firstInfo :=
| ASCII                              (* as *)
| Invalid                            (* xx *)
| Lead (size : Z) (lo hi : byte).    (* s1..s7 with their accept range *)

Definition first (p0 : byte) : firstInfo :=
  if p0 <? 0x80 then ASCII
  else if p0 <? 0xC2 then Invalid
  else if p0 <? 0xE0 then Lead 2 locb hicb
  else if p0 =? 0xE0 then Lead 3 0xA0 hicb
  else if p0 <? 0xED then Lead 3 locb hicb
  else if p0 =? 0xED then Lead 3 locb 0x9F
  else if p0 <? 0xF0 then Lead 3 locb hicb
  else if p0 =? 0xF0 then Lead 4 0x90 hicb
  else if p0 <? 0xF4 then Lead 4 locb hicb
  else if p0 =? 0xF4 then Lead 4 locb 0x8F
  else Invalid.

(** [utf8.DecodeRune]: the rune at the front of [p] and its width. *)
Definition DecodeRune (p : list byte) : Z * Z :=
  let n := len p in
  if n <? 1 then (RuneError, 0) else
  let p0 := at_index p 0 in
  match first p0 with
  | ASCII => (p0, 1)
  | Invalid => (RuneError, 1)
  | Lead sz lo hi =>
      if n <? sz then (RuneError, 1) else
      let b1 := at_index p 1 in
      if (b1 <? lo) || (hi <? b1) then (RuneError, 1) else
      if sz <=? 2 then
        (Z.lor (Z.shiftl (Z.land p0 mask2) 6) (Z.land b1 maskx), 2)
      else
      let b2 := at_index p 2 in
      if (b2 <? locb) || (hicb <? b2) then (RuneError, 1) else
      if sz <=? 3 then
        (Z.lor (Z.lor (Z.shiftl (Z.land p0 mask3) 12)
                      (Z.shiftl (Z.land b1 maskx) 6))
               (Z.land b2 maskx), 3)
      else
      let b3 := at_index p 3 in
      if (b3 <? locb) || (hicb <? b3) then (RuneError, 1) else
        (Z.lor (Z.lor (Z.lor (Z.shiftl (Z.land p0 mask4) 18)
                             (Z.shiftl (Z.land b1 maskx) 12))
                      (Z.shiftl (Z.land b2 maskx) 6))
               (Z.land b3 maskx), 4)
  end.

(** [utf8.RuneStart]: not a continuation byte. *)
Definition RuneStart (b : byte) : bool :=
  negb (Z.land b 0xC0 =? 0x80).

(** The backwards scan of [DecodeLastRune]:
    [for start--; start >= lim; start-- { if RuneStart(p[start]) break }]. *)
Fixpoint scanBack (fuel : nat) (p : list byte) (start lim : Z) : Z :=
  match fuel with
  | O => start
  | S fuel' =>
      if start <? lim then start
      else if RuneStart (at_index p start) then start
      else scanBack fuel' p (start - 1) lim
  end.

(** [utf8.DecodeLastRune]: the rune at the end of [p] and its width. *)
Definition DecodeLastRune (p : list byte) : Z * Z :=
  let end_ := len p in
  if end_ =? 0 then (RuneError, 0) else
  let start := end_ - 1 in
  let r := at_index p start in
  if r <? RuneSelf then (r, 1) else
  let lim := Z.max 0 (end_ - UTFMax) in
  let start := scanBack 5 p (start - 1) lim in
  let start := if start <? 0 then 0 else start in
  let '(r, size) := DecodeRune (slice_from p start) in
  if negb (start + size =? end_) then (RuneError, 1) else (r, size).

(** [utf8.EncodeRune] (as [AppendRune]: the bytes of the encoding). *)
Definition EncodeRune (r : Z) : list byte :=
  let enc3 (r : Z) :=
    [ Z.lor 0xE0 (Z.shiftr r 12);
      Z.lor 0x80 (Z.land (Z.shiftr r 6) maskx);
      Z.lor 0x80 (Z.land r maskx) ] in
  if (0 <=? r) && (r <=? 0x7F) then [r]
  else if (0 <=? r) && (r <=? 0x7FF) then
    [ Z.lor 0xC0 (Z.shiftr r 6); Z.lor 0x80 (Z.land r maskx) ]
  else if (r <? 0) || (MaxRune <? r)
          || ((surrogateMin <=? r) && (r <=? surrogateMax)) then
    enc3 RuneError
  else if r <=? 0xFFFF then enc3 r
  else
    [ Z.lor 0xF0 (Z.shiftr r 18);
      Z.lor 0x80 (Z.land (Z.shiftr r 12) maskx);
      Z.lor 0x80 (Z.land (Z.shiftr r 6) maskx);
      Z.lor 0x80 (Z.land r maskx) ].

End utf8.

(** ** unicode and strings *)

Module unicode.

(** [unicode.IsSpace]: the Latin-1 fast path and the White_Space table. *)
Definition IsSpace (r : Z) : bool :=
  if r <=? 0xFF then
    (r =? 0x09) || (r =? 0x0A) || (r =? 0x0B) || (r =? 0x0C) || (r =? 0x0D)
    || (r =? 0x20) || (r =? 0x85) || (r =? 0xA0)
  else
    (r =? 0x1680) || ((0x2000 <=? r) && (r <=? 0x200A))
    || (r =? 0x2028) || (r =? 0x2029) || (r =? 0x202F) || (r =? 0x205F)
    || (r =? 0x3000).

End unicode.

Module strings.

(** [strings.TrimLeftFunc(s, unicode.IsSpace)] on the bytes of [s]: drop
    whole runes while they are white space. *)
Fixpoint trimLeftSpace (fuel : nat) (p : list byte) : list byte :=
  match fuel with
  | O => p
  | S fuel' =>
      match p with
      | [] => []
      | _ =>
          let '(r, size) := utf8.DecodeRune p in
          if unicode.IsSpace r then trimLeftSpace fuel' (slice_from p size)
          else p
      end
  end.

(** [strings.TrimRightFunc(s, unicode.IsSpace)]. *)
Fixpoint trimRightSpace (fuel : nat) (p : list byte) : list byte :=
  match fuel with
  | O => p
  | S fuel' =>
      match p with
      | [] => []
      | _ =>
          let '(r, size) := utf8.DecodeLastRune p in
          if unicode.IsSpace r
          then trimRightSpace fuel' (slice_to p (len p - size))
          else p
      end
  end.

(** [strings.TrimSpace]: leading and trailing Unicode white space removed.
    The ASCII fast path of the Go function returns the same slice as the
    rune-wise one, left side first. *)
Definition TrimSpace (s : string) : string :=
  let p := bytes_of_string s in
  let l := trimLeftSpace (List.length p) p in
  string_of_bytes (trimRightSpace (List.length l) l).

(** [strings.HasPrefix]. *)
Definition HasPrefix (s prefix : string) : bool :=
  String.prefix prefix s.

End strings.

(** ** encoding/json

    [json.Unmarshal] for the one target type the adapter decodes into,
    [struct { Messages []struct { Role, Content string } }].  Go first checks
    that the whole input is one well-formed JSON text ([checkValid]) and only
    then stores values; a type mismatch is remembered (first one wins) while
    decoding goes on, and is returned at the end. *)

Module json.

Definition ch (a : ascii) : byte := byte_of_ascii a.

(** A JSON text as the scanner delimits it; strings and keys are already
    unquoted ([unquoteBytes]), numbers keep their literal. *)
Inductive Value :=
| JNull
| JBool (b : bool)
| JNumber (lit : list byte)
| JString (s : string)
| JArray (elems : list Value)
| JObject (members : list (string * Value)).

Definition maxNestingDepth : Z := 10000.

(** [isSpace] of the scanner: only these four bytes. *)
Definition isSpace (c : byte) : bool :=
  (c <=? ch " ") && ((c =? ch " ") || (c =? 9) || (c =? 13) || (c =? 10)).

Fixpoint skipSpace (p : list byte) : list byte :=
  match p with
  | c :: rest => if isSpace c then skipSpace rest else p
  | [] => []
  end.

Definition isDigit (c : byte) : bool := (ch "0" <=? c) && (c <=? ch "9").

Definition hexValue (c : byte) : option Z :=
  if (ch "0" <=? c) && (c <=? ch "9") then Some (c - ch "0")
  else if (ch "a" <=? c) && (c <=? ch "f") then Some (c - ch "a" + 10)
  else if (ch "A" <=? c) && (c <=? ch "F") then Some (c - ch "A" + 10)
  else None.

(** [getu4]: the rune of a leading [\uXXXX], or -1. *)
Definition getu4 (s : list byte) : Z :=
  match s with
  | b0 :: b1 :: h0 :: h1 :: h2 :: h3 :: _ =>
      if negb (b0 =? ch "\") || negb (b1 =? ch "u") then -1 else
      match hexValue h0, hexValue h1, hexValue h2, hexValue h3 with
      | Some x0, Some x1, Some x2, Some x3 =>
          ((x0 * 16 + x1) * 16 + x2) * 16 + x3
      | _, _, _, _ => -1
      end
  | _ => -1
  end.

(** [utf16.IsSurrogate] and [utf16.DecodeRune]. *)
Definition IsSurrogate (r : Z) : bool := (0xD800 <=? r) && (r <? 0xE000).

Definition utf16DecodeRune (r1 r2 : Z) : Z :=
  if (0xD800 <=? r1) && (r1 <? 0xDC00) && (0xDC00 <=? r2) && (r2 <? 0xE000)
  then Z.lor (Z.shiftl (r1 - 0xD800) 10) (r2 - 0xDC00) + 0x10000
  else utf8.RuneError.

(** The second loop of [unquoteBytes], on the bytes between the quotes
    (its first loop only finds how long a prefix can be returned as is):
    escapes are resolved and malformed UTF-8 is coerced to U+FFFD. *)
Fixpoint unquote (fuel : nat) (s : list byte) : option (list byte) :=
  match fuel with
  | O => match s with [] => Some [] | _ => None end
  | S fuel' =>
      match s with
      | [] => Some []
      | c :: rest =>
          if c =? ch "\" then
            match rest with
            | [] => None
            | e :: rest' =>
                let simple (b : byte) :=
                  option_map (cons b) (unquote fuel' rest') in
                if (e =? 34) || (e =? ch "\") || (e =? ch "/") || (e =? 39)
                then simple e
                else if e =? ch "b" then simple 8
                else if e =? ch "f" then simple 12
                else if e =? ch "n" then simple 10
                else if e =? ch "r" then simple 13
                else if e =? ch "t" then simple 9
                else if e =? ch "u" then
                  let rr := getu4 s in
                  if rr <? 0 then None else
                  let after := slice_from s 6 in
                  if IsSurrogate rr then
                    let dec := utf16DecodeRune rr (getu4 after) in
                    if negb (dec =? utf8.RuneError) then
                      option_map (app (utf8.EncodeRune dec))
                                 (unquote fuel' (slice_from after 6))
                    else
                      option_map (app (utf8.EncodeRune utf8.RuneError))
                                 (unquote fuel' after)
                  else
                    option_map (app (utf8.EncodeRune rr))
                               (unquote fuel' after)
                else None
            end
          else if (c =? 34) || (c <? ch " ") then None
          else if c <? utf8.RuneSelf then
            option_map (cons c) (unquote fuel' rest)
          else
            let '(rr, size) := utf8.DecodeRune s in
            option_map (app (utf8.EncodeRune rr))
                       (unquote fuel' (slice_from s size))
      end
  end.

(** The scanner inside a string literal ([stateInString],
    [stateInStringEsc], [stateInStringEscU...]): the raw bytes up to the
    closing quote, and what follows it. *)
Fixpoint stringLit (p : list byte) : option (list byte * list byte) :=
  match p with
  | [] => None
  | c :: rest =>
      if c =? 34 then Some ([], rest)
      else if c =? ch "\" then
        match rest with
        | [] => None
        | e :: rest' =>
            if (e =? ch "b") || (e =? ch "f") || (e =? ch "n")
               || (e =? ch "r") || (e =? ch "t") || (e =? ch "\")
               || (e =? ch "/") || (e =? 34)
            then
              match stringLit rest' with
              | Some (raw, tl) => Some (c :: e :: raw, tl)
              | None => None
              end
            else if e =? ch "u" then
              match rest' with
              | h0 :: ((h1 :: ((h2 :: ((h3 :: rest'') as r3)) as r2)) as r1) =>
                  match hexValue h0, hexValue h1, hexValue h2, hexValue h3 with
                  | Some _, Some _, Some _, Some _ =>
                      match stringLit rest'' with
                      | Some (raw, tl) =>
                          Some (c :: e :: h0 :: h1 :: h2 :: h3 :: raw, tl)
                      | None => None
                      end
                  | _, _, _, _ => None
                  end
              | _ => None
              end
            else None
        end
      else if c <? 32 then None
      else
        match stringLit rest with
        | Some (raw, tl) => Some (c :: raw, tl)
        | None => None
        end
  end.

(** A whole string literal after its opening quote, unquoted. *)
Definition quoted (p : list byte) : option (string * list byte) :=
  match stringLit p with
  | Some (raw, tl) =>
      match unquote (List.length raw) raw with
      | Some b => Some (string_of_bytes b, tl)
      | None => None
      end
  | None => None
  end.

Fixpoint digits (p : list byte) : list byte * list byte :=
  match p with
  | c :: rest =>
      if isDigit c then let '(ds, tl) := digits rest in (c :: ds, tl)
      else ([], p)
  | [] => ([], [])
  end.

(** Digits, at least one ([stateDot], [stateESign]). *)
Definition digits1 (p : list byte) : option (list byte * list byte) :=
  match digits p with
  | ([], _) => None
  | r => Some r
  end.

(** [stateE] and [stateESign]: an optional sign, then digits. *)
Definition exponent (p : list byte) : option (list byte * list byte) :=
  match p with
  | c :: rest =>
      if (c =? ch "e") || (c =? ch "E") then
        match rest with
        | sgn :: rest' =>
            if (sgn =? ch "+") || (sgn =? ch "-") then
              match digits1 rest' with
              | Some (ds, tl) => Some (c :: sgn :: ds, tl)
              | None => None
              end
            else
              match digits1 rest with
              | Some (ds, tl) => Some (c :: ds, tl)
              | None => None
              end
        | [] => None
        end
      else Some ([], p)
  | [] => Some ([], [])
  end.

(** [state0] onwards: an optional fraction and an optional exponent. *)
Definition fraction (p : list byte) : option (list byte * list byte) :=
  match p with
  | c :: rest =>
      if c =? ch "." then
        match digits1 rest with
        | Some (ds, tl) =>
            match exponent tl with
            | Some (ex, tl') => Some (c :: ds ++ ex, tl')
            | None => None
            end
        | None => None
        end
      else exponent p
  | [] => Some ([], [])
  end.

(** The integer part without sign ([state0], [state1]). *)
Definition unsignedNumber (p : list byte) : option (list byte * list byte) :=
  match p with
  | c :: rest =>
      if c =? ch "0" then
        match fraction rest with
        | Some (fr, tl) => Some (c :: fr, tl)
        | None => None
        end
      else if (ch "1" <=? c) && (c <=? ch "9") then
        let '(ds, tl) := digits rest in
        match fraction tl with
        | Some (fr, tl') => Some (c :: ds ++ fr, tl')
        | None => None
        end
      else None
  | [] => None
  end.

Definition number (p : list byte) : option (list byte * list byte) :=
  match p with
  | c :: rest =>
      if c =? ch "-" then
        match unsignedNumber rest with
        | Some (lit, tl) => Some (c :: lit, tl)
        | None => None
        end
      else unsignedNumber p
  | [] => None
  end.

(** [true], [false], [null], letter by letter. *)
Definition literal (word : string) (v : Value) (p : list byte)
  : option (Value * list byte) :=
  let w := bytes_of_string word in
  if (List.length w <=? List.length p)%nat
     && forallb (fun xy => fst xy =? snd xy) (List.combine w p)
  then Some (v, List.skipn (List.length w) p)
  else None.

(** The scanner on values, objects and arrays.  [p] starts at the first
    byte of the value (white space already skipped); [depth] is the
    number of open objects and arrays ([len(s.parseState)]).  A run that
    succeeds needs no more fuel than the bytes it consumes
    ([fuel_enough] below). *)
Fixpoint value (fuel : nat) (depth : Z) (p : list byte) {struct fuel}
  : option (Value * list byte) :=
  match fuel with
  | O => None
  | S fuel' =>
      match p with
      | [] => None
      | c :: rest =>
          if c =? ch "{" then
            if maxNestingDepth <? depth + 1 then None else
            match skipSpace rest with
            | c' :: rest' =>
                if c' =? ch "}" then Some (JObject [], rest')
                else
                  match members fuel' (depth + 1) (c' :: rest') with
                  | Some (ms, tl) => Some (JObject ms, tl)
                  | None => None
                  end
            | [] => None
            end
          else if c =? ch "[" then
            if maxNestingDepth <? depth + 1 then None else
            match skipSpace rest with
            | c' :: rest' =>
                if c' =? ch "]" then Some (JArray [], rest')
                else
                  match elements fuel' (depth + 1) (c' :: rest') with
                  | Some (es, tl) => Some (JArray es, tl)
                  | None => None
                  end
            | [] => None
            end
          else if c =? 34 then
            match quoted rest with
            | Some (s, tl) => Some (JString s, tl)
            | None => None
            end
          else if c =? ch "t" then literal "true" (JBool true) p
          else if c =? ch "f" then literal "false" (JBool false) p
          else if c =? ch "n" then literal "null" JNull p
          else
            match number p with
            | Some (lit, tl) => Some (JNumber lit, tl)
            | None => None
            end
      end
  end

(** After [{] or a comma in an object: a key, a colon, a value, then a
    comma or the closing brace. *)
with members (fuel : nat) (depth : Z) (p : list byte) {struct fuel}
  : option (list (string * Value) * list byte) :=
  match fuel with
  | O => None
  | S fuel' =>
      match p with
      | [] => None
      | q :: rest =>
          if negb (q =? 34) then None else
          match quoted rest with
          | None => None
          | Some (key, tl) =>
              match skipSpace tl with
              | colon :: tl1 =>
                  if negb (colon =? ch ":") then None else
                  match value fuel' depth (skipSpace tl1) with
                  | None => None
                  | Some (v, tl2) =>
                      match skipSpace tl2 with
                      | sep :: tl3 =>
                          if sep =? ch "}" then Some ([(key, v)], tl3)
                          else if sep =? ch "," then
                            match members fuel' depth (skipSpace tl3) with
                            | Some (ms, tl4) => Some ((key, v) :: ms, tl4)
                            | None => None
                            end
                          else None
                      | [] => None
                      end
                  end
              | [] => None
              end
          end
      end
  end

(** After [[] or a comma in an array: a value, then a comma or the closing
    bracket. *)
with elements (fuel : nat) (depth : Z) (p : list byte) {struct fuel}
  : option (list Value * list byte) :=
  match fuel with
  | O => None
  | S fuel' =>
      match value fuel' depth p with
      | None => None
      | Some (v, tl) =>
          match skipSpace tl with
          | sep :: tl1 =>
              if sep =? ch "]" then Some ([v], tl1)
              else if sep =? ch "," then
                match elements fuel' depth (skipSpace tl1) with
                | Some (vs, tl2) => Some (v :: vs, tl2)
                | None => None
                end
              else None
          | [] => None
          end
      end
  end.

(** [checkValid]: exactly one value, white space around it allowed. *)
Definition parse (data : string) : option Value :=
  let p := bytes_of_string data in
  match value (S (List.length p)) 0 (skipSpace p) with
  | Some (v, tl) =>
      match skipSpace tl with
      | [] => Some v
      | _ => None
      end
  | None => None
  end.

(** *** Storing into the payload *)

Inductive Error :=
| SyntaxError
| UnmarshalTypeError (jsonKind : string).

Record Message := { Role : string; Content : string }.

(** A Go slice of messages while it is being stored into: its elements, and
    what the backing array holds between length and capacity, which
    survives a later store into the same slice. *)
Record MessageSlice := { elems : list Message; spare : list Message }.

(** The decode target, [inputPayload]. *)
Record Payload := { Messages : list Message }.

Definition nilSlice : MessageSlice := {| elems := []; spare := [] |}.
Definition zeroMessage : Message := {| Role := ""; Content := "" |}.
Definition zeroPayload : Payload := {| Messages := [] |}.

(** [d.saveError]: only the first error is kept. *)
Definition saveError (saved : option Error) (e : Error) : option Error :=
  match saved with
  | None => Some e
  | Some _ => saved
  end.

Definition kindOf (v : Value) : string :=
  match v with
  | JNull => "null"
  | JBool _ => "bool"
  | JNumber _ => "number"
  | JString _ => "string"
  | JArray _ => "array"
  | JObject _ => "object"
  end.

(** [foldRune] on the two runes that fold onto ASCII letters, the long s and
    the Kelvin sign; every other rune above ASCII folds to a rune above
    ASCII and is left as it is, which is all a comparison with the ASCII
    field names can observe. *)
Definition foldRune (r : Z) : Z :=
  if r =? 0x017F then ch "S"
  else if r =? 0x212A then ch "K"
  else r.

(** [foldName] ([appendFoldedName]). *)
Fixpoint appendFoldedName (fuel : nat) (p : list byte) : list byte :=
  match fuel with
  | O => []
  | S fuel' =>
      match p with
      | [] => []
      | c :: rest =>
          if c <? utf8.RuneSelf then
            (if (ch "a" <=? c) && (c <=? ch "z") then c - (ch "a" - ch "A")
             else c) :: appendFoldedName fuel' rest
          else
            let '(r, n) := utf8.DecodeRune p in
            utf8.EncodeRune (foldRune r)
              ++ appendFoldedName fuel' (slice_from p n)
      end
  end.

Definition foldName (s : string) : string :=
  let p := bytes_of_string s in
  string_of_bytes (appendFoldedName (List.length p) p).

(** The field a key selects: the exact name first, then the folded one. *)
Definition selects (key name : string) : bool :=
  String.eqb key name || String.eqb (foldName key) (foldName name).

(** A string field: a JSON string is stored, [null] leaves the field as it
    is, anything else is a type error. *)
Definition storeString (cur : string) (v : Value) (saved : option Error)
  : string * option Error :=
  match v with
  | JString s => (s, saved)
  | JNull => (cur, saved)
  | _ => (cur, saveError saved (UnmarshalTypeError (kindOf v)))
  end.

Definition storeField (m : Message) (saved : option Error)
           (member : string * Value) : Message * option Error :=
  let '(key, v) := member in
  if selects key "role" then
    let '(s, saved') := storeString (Role m) v saved in
    ({| Role := s; Content := Content m |}, saved')
  else if selects key "content" then
    let '(s, saved') := storeString (Content m) v saved in
    ({| Role := Role m; Content := s |}, saved')
  else (m, saved).

(** One element of the slice: an object is stored field by field into the
    element as it is, [null] leaves it, anything else is a type error. *)
Definition storeMessage (cur : Message) (v : Value) (saved : option Error)
  : Message * option Error :=
  match v with
  | JObject ms =>
      List.fold_left (fun acc member => storeField (fst acc) (snd acc) member)
                     ms (cur, saved)
  | JNull => (cur, saved)
  | _ => (cur, saveError saved (UnmarshalTypeError (kindOf v)))
  end.

(** The loop of [d.array]: element [i] is decoded into [v.Index(i)], which
    is what the backing array holds there, or a zero element past it. *)
Fixpoint storeElems (arr : list Message) (elems : list Value)
         (saved : option Error) : list Message * option Error :=
  match elems with
  | [] => (arr, saved)
  | e :: es =>
      let '(cur, tl) := match arr with
                        | m :: tl => (m, tl)
                        | [] => (zeroMessage, [])
                        end in
      let '(m, saved1) := storeMessage cur e saved in
      let '(ms, saved2) := storeElems tl es saved1 in
      (m :: ms, saved2)
  end.

(** The [Messages] field: an empty array gives a new empty slice, a
    non-empty one is stored over the backing array and the length set to
    the number of elements, [null] gives the nil slice, anything else is a
    type error. *)
Definition storeMessages (cur : MessageSlice) (v : Value)
           (saved : option Error) : MessageSlice * option Error :=
  match v with
  | JArray [] => (nilSlice, saved)
  | JArray es =>
      let '(arr, saved') := storeElems (elems cur ++ spare cur) es saved in
      ({| elems := List.firstn (List.length es) arr;
          spare := List.skipn (List.length es) arr |}, saved')
  | JNull => (nilSlice, saved)
  | _ => (cur, saveError saved (UnmarshalTypeError (kindOf v)))
  end.

Definition storePayloadField (sl : MessageSlice) (saved : option Error)
           (member : string * Value) : MessageSlice * option Error :=
  let '(key, v) := member in
  if selects key "messages" then storeMessages sl v saved
  else (sl, saved).

(** The top-level value into the struct: an object is stored member by
    member, [null] leaves the struct, anything else is a type error. *)
Definition storePayload (cur : MessageSlice) (v : Value)
           (saved : option Error) : MessageSlice * option Error :=
  match v with
  | JObject ms =>
      List.fold_left
        (fun acc member => storePayloadField (fst acc) (snd acc) member)
        ms (cur, saved)
  | JNull => (cur, saved)
  | _ => (cur, saveError saved (UnmarshalTypeError (kindOf v)))
  end.

(** [json.Unmarshal([]byte(data), &inputPayload)] on the zero payload: the
    payload afterwards, and the error ([None] is [nil]).  A syntax error
    leaves the payload untouched. *)
Definition Unmarshal (data : string) : Payload * option Error :=
  match parse data with
  | None => (zeroPayload, Some SyntaxError)
  | Some v =>
      let '(sl, err) := storePayload nilSlice v None in
      ({| Messages := elems sl |}, err)
  end.

End json.

(** JSON texts are written below with an apostrophe where the text has a
    double quote; [jsonText] puts the double quotes back. *)
Fixpoint jsonText (s : string) : string :=
  match s with
  | EmptyString => EmptyString
  | String c rest =>
      String (if Ascii.eqb c "'"%char then ascii_of_nat 34 else c)
             (jsonText rest)
  end.

(** ** The types of the collaborators *)

Module http.
(** [*http.Client]: the injected transport, opaque to the adapter. *)
Record Client := { transport : nat }.

Definition StatusUnauthorized : Z := 401.
Definition StatusTooManyRequests : Z := 429.
End http.

Module oai.

Inductive Role := system | user | assistant.

(** [ChatCompletionMessageParamUnion], as far as the three constructors the
    adapter calls fill it. *)
Record ChatCompletionMessageParamUnion :=
  { role : Role; content : string }.

Definition SystemMessage (c : string) := {| role := system; content := c |}.
Definition UserMessage (c : string) := {| role := user; content := c |}.
Definition AssistantMessage (c : string) :=
  {| role := assistant; content := c |}.

Inductive RequestOption :=
| WithAPIKey (key : string)
| WithHTTPClient (c : http.Client)
| WithBaseURL (url : string).

Record Client := NewClient { options : list RequestOption }.

Record ChatCompletionNewParams :=
  { Model : string;
    Messages : list ChatCompletionMessageParamUnion;
    Temperature : Q;
    MaxTokens : Z }.

Record ChatCompletionMessage := { Content : string }.
Record ChatCompletionChoice := { Message : ChatCompletionMessage }.
Record CompletionUsage := { TotalTokens : Z }.
Record ChatCompletion :=
  { Choices : list ChatCompletionChoice; Usage : CompletionUsage }.

(** [*oai.Error]: the HTTP status of the failed call and the rendered
    text of [Error()]. *)
Record Error := { StatusCode : Z; text : string }.

End oai.

Module ai.

Inductive ErrorCode := ErrorUnknown | ErrorCredentials | ErrorRateLimit.

Record ServiceError :=
  { Message : string;
    Code : ErrorCode;
    Instructions : string;
    Input : string }.

End ai.

Module flows.
Record LLMResponse := { Output : string; TokensUsed : Z }.
End flows.

(** ** errors *)

Module errors.

(** The Go error values the adapter meets: plain ones ([errors.New],
    [fmt.Errorf] without [%w]), the provider's [*oai.Error], errors that
    wrap one other ([Unwrap() error], a nil inner error is [None]), joined
    errors ([Unwrap() []error]) and the adapter's own [*ai.ServiceError]. *)
Inductive error :=
| errorString (s : string)
| apiError (e : oai.Error)
| wrapError (msg : string) (inner : option error)
| joinError (errs : list error)
| serviceError (e : ai.ServiceError).

(** [err.Error()]. *)
Fixpoint Error (err : error) : string :=
  match err with
  | errorString s => s
  | apiError e => oai.text e
  | wrapError msg _ => msg
  | joinError errs =>
      (fix join (l : list error) : string :=
         match l with
         | [] => ""
         | [e] => Error e
         | e :: tl => (Error e ++ String (ascii_of_nat 10) (join tl))%string
         end) errs
  | serviceError e => ai.Message e
  end.

(** [errors.As(err, &aerr)] for [aerr] of type [*oai.Error]: the first
    provider error in the tree of [err], depth first; [None] is [false]. *)
Fixpoint As (err : error) : option oai.Error :=
  match err with
  | apiError e => Some e
  | wrapError _ (Some inner) => As inner
  | wrapError _ None => None
  | joinError errs =>
      (fix first (l : list error) : option oai.Error :=
         match l with
         | [] => None
         | e :: tl =>
             match As e with
             | Some a => Some a
             | None => first tl
             end
         end) errs
  | errorString _ => None
  | serviceError _ => None
  end.

End errors.

(** ** core/models *)

Module models.

(** A value of a [map[string]any] read from the database. *)
Inductive ConfigValue :=
| VString (s : string)
| VNumber (n : Z)
| VBool (b : bool)
| VNull.

Abbreviation Config := (gmap string ConfigValue).

(** Modelled from the spec: [Config.GetString] of [core/models] is not
    among the sources.  The configuration source supplies a required API
    key and an optional base-URL override, read with a default: the
    string stored under [key], and [def] when the key is missing or does
    not hold a string. *)
Definition GetString (c : Config) (key def : string) : string :=
  match c !! key with
  | Some (VString s) => s
  | _ => def
  end.

(** [*models.LLM], through its accessors [UUID()], [Model()] and
    [Config()]. *)
Record LLM := { UUID : string; Model : string; Config_ : Config }.

End models.

(** The request, the outcome of the remote call and the result of
    [Response] are shared by both revisions. *)

Inductive Outcome :=
| Completed (resp : oai.ChatCompletion)
| Failed (err : errors.error).

(** [s.client.Chat.Completions.New]: the completion endpoint, a collaborator
    the adapter is given. *)
Definition Endpoint : Type :=
  oai.Client -> oai.ChatCompletionNewParams -> Outcome.

Definition temperature : Q := (1 # 1000000)%Q.

Definition notEmpty (s : string) : bool := negb (String.eqb s "").

Definition sample : string := jsonText
  "{'messages':[{'role':'system','content':'A'},{'role':'user','content':'B'},{'role':'assistant','content':'C'},{'role':'weird','content':'D'}]}".

(** ** The adapter, current revision ([src/unnamed/part_000])

    Registered for both [TypeOpenAI] and [TypeOpenClaw]; expands a
    structured multi-turn input. *)

Module openai.

Definition TypeOpenAI : string := "openai".
Definition TypeOpenClaw : string := "openclaw".
Definition configAPIKey : string := "api_key".
Definition configEndpoint : string := "endpoint".

Record service := { client : oai.Client; model : string }.

(** [New]: [(nil, err)] is [(None, Some err)]. *)
Definition New (m : models.LLM) (c : http.Client)
  : option service * option errors.error :=
  let apiKey := models.GetString (models.Config_ m) configAPIKey "" in
  if String.eqb apiKey "" then
    (None,
     Some (errors.errorString
             ("config incomplete for LLM: " ++ models.UUID m)%string))
  else
    let opts := [oai.WithAPIKey apiKey; oai.WithHTTPClient c] in
    let endpoint := models.GetString (models.Config_ m) configEndpoint "" in
    let opts :=
      if notEmpty endpoint then opts ++ [oai.WithBaseURL endpoint]
      else opts in
    (Some {| client := oai.NewClient opts; model := models.Model m |}, None).

(** The body of the [range] loop: the [switch] on [msg.Role]. *)
Definition appendTurn (messages : list oai.ChatCompletionMessageParamUnion)
           (msg : json.Message)
  : list oai.ChatCompletionMessageParamUnion :=
  if String.eqb (json.Role msg) "system" then
    messages ++ [oai.SystemMessage (json.Content msg)]
  else if String.eqb (json.Role msg) "assistant" then
    messages ++ [oai.AssistantMessage (json.Content msg)]
  else (* case "user": fallthrough; default: *)
    messages ++ [oai.UserMessage (json.Content msg)].

(** The first part of [Response], up to the remote call: the messages of
    the request. *)
Definition buildMessages (instructions input : string)
  : list oai.ChatCompletionMessageParamUnion :=
  let messages := [] in
  let messages :=
    if notEmpty instructions
    then messages ++ [oai.SystemMessage instructions]
    else messages in
  let '(isJSON, messages) :=
    if notEmpty (strings.TrimSpace input)
       && strings.HasPrefix (strings.TrimSpace input) "{"
    then
      let '(inputPayload, err) := json.Unmarshal input in
      if (match err with None => true | Some _ => false end)
         && (0 <? Z.of_nat (List.length (json.Messages inputPayload)))
      then
        (true, List.fold_left appendTurn (json.Messages inputPayload) messages)
      else (false, messages)
    else (false, messages) in
  if negb isJSON && notEmpty (strings.TrimSpace input)
  then messages ++ [oai.UserMessage input]
  else messages.

(** The method [error]: the provider's failure as an [ai.ServiceError]. *)
Definition error (err : errors.error) (instructions input : string)
  : errors.error :=
  let code := ai.ErrorUnknown in
  let code :=
    match errors.As err with
    | Some aerr =>
        if oai.StatusCode aerr =? http.StatusUnauthorized
        then ai.ErrorCredentials
        else if oai.StatusCode aerr =? http.StatusTooManyRequests
        then ai.ErrorRateLimit
        else code
    | None => code
    end in
  errors.serviceError
    {| ai.Message := errors.Error err;
       ai.Code := code;
       ai.Instructions := instructions;
       ai.Input := input |}.

(** [Response]: [(resp, nil)] is [(Some resp, None)], [(nil, err)] is
    [(None, Some err)]. *)
Definition Response (endpoint : Endpoint) (s : service)
           (instructions input : string) (maxTokens : Z)
  : option flows.LLMResponse * option errors.error :=
  let messages := buildMessages instructions input in
  match endpoint (client s)
          {| oai.Model := model s;
             oai.Messages := messages;
             oai.Temperature := temperature;
             oai.MaxTokens := maxTokens |} with
  | Failed err => (None, Some (error err instructions input))
  | Completed resp =>
      match oai.Choices resp with
      | [] => (Some {| flows.Output := ""; flows.TokensUsed := 0 |}, None)
      | choice :: _ =>
          (Some {| flows.Output := oai.Content (oai.Message choice);
                   flows.TokensUsed := oai.TotalTokens (oai.Usage resp) |},
           None)
      end
  end.

End openai.

(** ** The adapter, earlier revision
    ([src/services/llm/openai/service.go])

    The structured-input branch is an empty block there, and the input is
    appended as a user message whatever it is. *)

Module openai_basic.

Definition TypeOpenAI : string := "openai".
Definition configAPIKey : string := "api_key".

Record service := { client : oai.Client; model : string }.

Definition New (m : models.LLM) (c : http.Client)
  : option service * option errors.error :=
  let apiKey := models.GetString (models.Config_ m) configAPIKey "" in
  if String.eqb apiKey "" then
    (None,
     Some (errors.errorString
             ("config incomplete for LLM: " ++ models.UUID m)%string))
  else
    (Some {| client := oai.NewClient [oai.WithAPIKey apiKey;
                                      oai.WithHTTPClient c];
             model := models.Model m |}, None).

Definition buildMessages (instructions input : string)
  : list oai.ChatCompletionMessageParamUnion :=
  let messages := [] in
  let messages :=
    if notEmpty instructions
    then messages ++ [oai.SystemMessage instructions]
    else messages in
  let messages :=
    if notEmpty (strings.TrimSpace input)
       && strings.HasPrefix (strings.TrimSpace input) "{"
    then messages (* the block holds comments only *)
    else messages in
  messages ++ [oai.UserMessage input].

Definition error (err : errors.error) (instructions input : string)
  : errors.error :=
  let code := ai.ErrorUnknown in
  let code :=
    match errors.As err with
    | Some aerr =>
        if oai.StatusCode aerr =? http.StatusUnauthorized
        then ai.ErrorCredentials
        else if oai.StatusCode aerr =? http.StatusTooManyRequests
        then ai.ErrorRateLimit
        else code
    | None => code
    end in
  errors.serviceError
    {| ai.Message := errors.Error err;
       ai.Code := code;
       ai.Instructions := instructions;
       ai.Input := input |}.

Definition Response (endpoint : Endpoint) (s : service)
           (instructions input : string) (maxTokens : Z)
  : option flows.LLMResponse * option errors.error :=
  let messages := buildMessages instructions input in
  match endpoint (client s)
          {| oai.Model := model s;
             oai.Messages := messages;
             oai.Temperature := temperature;
             oai.MaxTokens := maxTokens |} with
  | Failed err => (None, Some (error err instructions input))
  | Completed resp =>
      match oai.Choices resp with
      | [] => (Some {| flows.Output := ""; flows.TokensUsed := 0 |}, None)
      | choice :: _ =>
          (Some {| flows.Output := oai.Content (oai.Message choice);
                   flows.TokensUsed := oai.TotalTokens (oai.Usage resp) |},
           None)
      end
  end.

End openai_basic.

(** * Properties of the message builder *)

(** The words of the specification. *)

(** Blank: empty or all white space. *)
Definition blank (s : string) : Prop := strings.TrimSpace s = "".

(** The input looks structured: its trimmed value starts with a brace. *)
Definition looksStructured (input : string) : Prop :=
  strings.HasPrefix (strings.TrimSpace input) "{" = true.

(** [input] decodes to the messages [msgs]. *)
Definition decodesTo (input : string) (msgs : list json.Message) : Prop :=
  json.Unmarshal input = ({| json.Messages := msgs |}, None).

(** [input] fails to decode. *)
Definition failsToDecode (input : string) : Prop :=
  exists payload e, json.Unmarshal input = (payload, Some e).

(** The three-way role mapping as the specification words it: [system] to a
    system turn, [assistant] to an assistant turn, anything else to a user
    turn. *)
Definition specTurn (msg : json.Message) : oai.ChatCompletionMessageParamUnion :=
  if string_dec (json.Role msg) "system" then
    {| oai.role := oai.system; oai.content := json.Content msg |}
  else if string_dec (json.Role msg) "assistant" then
    {| oai.role := oai.assistant; oai.content := json.Content msg |}
  else {| oai.role := oai.user; oai.content := json.Content msg |}.

(** What the builder has appended once the instructions are handled. *)
Definition systemTurn (instructions : string)
  : list oai.ChatCompletionMessageParamUnion :=
  if notEmpty instructions then [oai.SystemMessage instructions] else [].

(** The turns the sample input stands for. *)
Definition sampleTurns : list oai.ChatCompletionMessageParamUnion :=
  [ oai.SystemMessage "A"; oai.UserMessage "B";
    oai.AssistantMessage "C"; oai.UserMessage "D" ].

Definition sampleMessages : list json.Message :=
  [ {| json.Role := "system"; json.Content := "A" |};
    {| json.Role := "user"; json.Content := "B" |};
    {| json.Role := "assistant"; json.Content := "C" |};
    {| json.Role := "weird"; json.Content := "D" |} ].

(** ASCII lower case, to say that two role strings differ in case only. *)
Definition lowerByte (a : ascii) : ascii :=
  let n := nat_of_ascii a in
  if ((65 <=? n) && (n <=? 90))%nat then ascii_of_nat (n + 32) else a.

Fixpoint asciiLower (s : string) : string :=
  match s with
  | EmptyString => EmptyString
  | String a rest => String (lowerByte a) (asciiLower rest)
  end.

(** [role] is [literal] but for the case of some letters. *)
Definition differsInCaseOnly (role literal : string) : Prop :=
  role <> literal /\ asciiLower role = literal.

Definition caseSample : string := jsonText
  "{'messages':[{'role':'System','content':'A'},{'role':'SYSTEM','content':'B'},{'role':'Assistant','content':'C'}]}".

(** The request [Response] sends. *)
Definition request (model : string) (instructions input : string)
           (maxTokens : Z) : oai.ChatCompletionNewParams :=
  {| oai.Model := model;
     oai.Messages := openai.buildMessages instructions input;
     oai.Temperature := temperature;
     oai.MaxTokens := maxTokens |}.

Definition request_basic (model : string) (instructions input : string)
           (maxTokens : Z) : oai.ChatCompletionNewParams :=
  {| oai.Model := model;
     oai.Messages := openai_basic.buildMessages instructions input;
     oai.Temperature := temperature;
     oai.MaxTokens := maxTokens |}.

(** The error is a provider API error with HTTP status [status]. *)
Definition isAPIError (err : errors.error) (status : Z) : Prop :=
  exists aerr, errors.As err = Some aerr /\ oai.StatusCode aerr = status.

(** The error is no provider API error. *)
Definition notAPIError (err : errors.error) : Prop := errors.As err = None.

(** [f] is fuel enough for every run of [run] that succeeds with it: the run
    consumes input, and succeeds alike with any fuel not below the number
    of bytes it consumes. *)
Definition enough {A : Type}
           (run : nat -> Z -> list byte -> option (A * list byte)) (f : nat)
  : Prop :=
  forall d p r tl,
    run f d p = Some (r, tl) ->
    (List.length tl < List.length p)%nat
    /\ forall f', (List.length p - List.length tl <= f')%nat ->
                  run f' d p = Some (r, tl).


(** ** Words for payloads, provenance and error codes *)

(** The turn came from the instructions. *)
Definition fromInstructions (instructions : string)
           (t : oai.ChatCompletionMessageParamUnion) : Prop :=
  instructions <> "" /\ t = oai.SystemMessage instructions.

(** The turn came from a decoded message of the input with role [role]. *)
Definition fromDecoded (input role : string)
           (t : oai.ChatCompletionMessageParamUnion) : Prop :=
  looksStructured input
  /\ exists msgs msg,
      decodesTo input msgs /\ In msg msgs
      /\ json.Role msg = role /\ oai.content t = json.Content msg.

(** The code the normalizer gives an error. *)
Definition codeOf (err : errors.error) : ai.ErrorCode :=
  match openai.error err "" "" with
  | errors.serviceError se => ai.Code se
  | _ => ai.ErrorUnknown
  end.

(** The first byte of the input is white space that JSON does not know, or
    no ASCII at all. *)
Definition foreignToJSON (c : byte) : Prop := c = 11 \/ c = 12 \/ 128 <= c.

(** A JSON text for a list of messages, the way a flow would write it:
    [{"messages":[{"role":"...","content":"..."},...]}], no white space.
    Roles and contents are written between quotes as they are, so they are
    to be plain: printable ASCII without the quote and the backslash. *)
Definition plainByte (c : byte) : bool :=
  (32 <=? c) && (c <? 127) && negb (c =? 34) && negb (c =? 92).

Definition plainText (s : string) : Prop :=
  forallb plainByte (bytes_of_string s) = true.

Definition plainMessage (m : json.Message) : Prop :=
  plainText (json.Role m) /\ plainText (json.Content m).

Definition dquote : string := String (ascii_of_nat 34) "".

Definition quoteString (s : string) : string :=
  (dquote ++ s ++ dquote)%string.

Definition encodeMessage (m : json.Message) : string :=
  ("{" ++ quoteString "role" ++ ":" ++ quoteString (json.Role m) ++ ","
       ++ quoteString "content" ++ ":" ++ quoteString (json.Content m)
       ++ "}")%string.

Fixpoint joinComma (l : list string) : string :=
  match l with
  | [] => ""
  | [x] => x
  | x :: tl => (x ++ "," ++ joinComma tl)%string
  end.

Definition encodePayload (msgs : list json.Message) : string :=
  ("{" ++ quoteString "messages" ++ ":["
       ++ joinComma (List.map encodeMessage msgs) ++ "]}")%string.

(** The JSON value of a message written so. *)
Definition objectOf (m : json.Message) : json.Value :=
  json.JObject [("role", json.JString (json.Role m));
                ("content", json.JString (json.Content m))].

(** The same text byte by byte, followed by [tl]. *)
Definition messageBytes (m : json.Message) (tl : list byte) : list byte :=
  json.ch "{" :: 34 :: bytes_of_string "role"
    ++ 34 :: json.ch ":" :: 34 :: bytes_of_string (json.Role m)
    ++ 34 :: json.ch "," :: 34 :: bytes_of_string "content"
    ++ 34 :: json.ch ":" :: 34 :: bytes_of_string (json.Content m)
    ++ 34 :: json.ch "}" :: tl.

Fixpoint elementsBytes (msgs : list json.Message) (tl : list byte)
  : list byte :=
  match msgs with
  | [] => tl
  | [m] => messageBytes m (json.ch "]" :: tl)
  | m :: ms => messageBytes m (json.ch "," :: elementsBytes ms tl)
  end.

Definition payloadBytes (msgs : list json.Message) (tl : list byte)
  : list byte :=
  json.ch "{" :: 34 :: bytes_of_string "messages"
    ++ 34 :: json.ch ":" :: json.ch "["
    :: elementsBytes msgs (json.ch "}" :: tl).

(** White space as JSON knows it: spaces, tabs, carriage returns and line
    feeds only. *)
Definition jsonBlank (ws : string) : Prop :=
  forallb json.isSpace (bytes_of_string ws) = true.

(** * The library models run to the end

    The recursive models above count down a fuel that starts at the length
    of their input.  It never runs out: every step consumes at least one
    byte, so more fuel changes nothing. *)

Ltac break_hyp H :=
  match type of H with
  | context [match ?x with _ => _ end] =>
      let E := fresh "E" in destruct x eqn:E; try discriminate H
  | context [if ?x then _ else _] =>
      let E := fresh "E" in destruct x eqn:E; try discriminate H
  end.

Lemma skipSpace_length (p : list byte) :
  (List.length (json.skipSpace p) <= List.length p)%nat.
Proof.
  induction p as [|c p IH]; simpl; [lia|].
  destruct (json.isSpace c); simpl; lia.
Qed.

Lemma skipSpace_cons (p : list byte) (c : byte) (tl : list byte) :
  json.skipSpace p = c :: tl -> (List.length tl < List.length p)%nat.
Proof.
  intros E. pose proof (skipSpace_length p) as H. rewrite E in H. simpl in H. lia.
Qed.

Lemma stringLit_length (p : list byte) :
  forall raw tl, json.stringLit p = Some (raw, tl) ->
                 (List.length tl < List.length p)%nat.
Proof.
  induction p as [p IH] using (well_founded_induction
                                 (Wf_nat.well_founded_ltof _ (@List.length byte))).
  unfold Wf_nat.ltof in IH.
  intros raw tl H. destruct p as [|c rest]; [discriminate|].
  simpl in H.
  repeat break_hyp H; simpl in *;
    try (injection H as <- <-; simpl; lia);
    match goal with
    | E : json.stringLit ?q = Some (_, _) |- _ =>
        apply IH in E; [injection H as <- <-; simpl in *; lia | simpl; lia]
    end.
Qed.

Lemma quoted_length (p : list byte) (s : string) (tl : list byte) :
  json.quoted p = Some (s, tl) -> (List.length tl < List.length p)%nat.
Proof.
  unfold json.quoted. intros H. repeat break_hyp H.
  injection H as <- <-. eapply stringLit_length; eassumption.
Qed.

Lemma digits_length (p : list byte) :
  forall ds tl, json.digits p = (ds, tl) ->
                (List.length tl <= List.length p)%nat.
Proof.
  induction p as [|c p IH]; simpl; intros ds tl H.
  - injection H as <- <-. simpl. lia.
  - destruct (json.isDigit c).
    + destruct (json.digits p) as [ds' tl'] eqn:E.
      injection H as <- <-. specialize (IH _ _ eq_refl). lia.
    + injection H as <- <-. simpl. lia.
Qed.

Lemma digits1_length (p ds tl : list byte) :
  json.digits1 p = Some (ds, tl) -> (List.length tl <= List.length p)%nat.
Proof.
  unfold json.digits1. intros H.
  destruct (json.digits p) as [ds' tl'] eqn:E.
  apply digits_length in E. destruct ds'; [discriminate|].
  injection H as <- <-. exact E.
Qed.

Lemma exponent_length (p ex tl : list byte) :
  json.exponent p = Some (ex, tl) -> (List.length tl <= List.length p)%nat.
Proof.
  unfold json.exponent. intros H.
  repeat break_hyp H; try (injection H as <- <-); simpl;
    repeat match goal with
           | E : json.digits1 _ = Some _ |- _ => apply digits1_length in E
           end; simpl in *; lia.
Qed.

Lemma fraction_length (p fr tl : list byte) :
  json.fraction p = Some (fr, tl) -> (List.length tl <= List.length p)%nat.
Proof.
  unfold json.fraction. intros H.
  destruct p as [|c rest]; [injection H as <- <-; simpl; lia|].
  destruct (Z.eqb c (json.ch ".")).
  - repeat break_hyp H. injection H as <- <-.
    repeat match goal with
           | E : json.digits1 _ = Some _ |- _ => apply digits1_length in E
           | E : json.exponent _ = Some _ |- _ => apply exponent_length in E
           end; simpl in *; lia.
  - apply exponent_length in H. exact H.
Qed.

Lemma unsignedNumber_length (p lit tl : list byte) :
  json.unsignedNumber p = Some (lit, tl) ->
  (List.length tl < List.length p)%nat.
Proof.
  unfold json.unsignedNumber. intros H.
  repeat break_hyp H; injection H as <- <-;
    repeat match goal with
           | E : json.digits _ = (_, _) |- _ => apply digits_length in E
           | E : json.fraction _ = Some _ |- _ => apply fraction_length in E
           end; simpl in *; lia.
Qed.

Lemma number_length (p lit tl : list byte) :
  json.number p = Some (lit, tl) -> (List.length tl < List.length p)%nat.
Proof.
  unfold json.number. intros H.
  destruct p as [|c rest]; [discriminate|].
  destruct (Z.eqb c (json.ch "-")).
  - repeat break_hyp H. injection H as <- <-.
    match goal with
    | E : json.unsignedNumber _ = Some _ |- _ =>
        apply unsignedNumber_length in E
    end; simpl in *; lia.
  - apply unsignedNumber_length in H. exact H.
Qed.

Lemma literal_length (word : string) (v v' : json.Value) (p tl : list byte) :
  word <> "" ->
  json.literal word v p = Some (v', tl) ->
  (List.length tl < List.length p)%nat.
Proof.
  unfold json.literal. intros Hw H. break_hyp H. injection H as <- <-.
  apply andb_prop in E as [E _]. apply Nat.leb_le in E.
  rewrite length_skipn.
  assert (0 < List.length (bytes_of_string word))%nat.
  { destruct word; [contradiction|]. simpl. lia. }
  lia.
Qed.

Ltac note_skips :=
  repeat match goal with
         | _ : context [json.skipSpace ?x] |- _ =>
             lazymatch goal with
             | _ : (List.length (json.skipSpace x) <= List.length x)%nat |- _ =>
                 fail
             | _ => pose proof (skipSpace_length x)
             end
         end.

Ltac lengths :=
  note_skips;
  repeat match goal with
         | E : json.skipSpace _ = _ :: _ |- _ =>
             apply (f_equal (@List.length byte)) in E
         | E : json.quoted _ = Some _ |- _ => apply quoted_length in E
         | E : json.number _ = Some _ |- _ => apply number_length in E
         | E : json.literal _ _ _ = Some _ |- _ =>
             apply literal_length in E; [|discriminate]
         end;
  simpl List.length in *.

(** What the induction hypotheses say of the recursive calls in scope. *)
Ltac recall IHv IHm IHe :=
  repeat match goal with
         | E : json.value _ _ _ = Some _ |- _ =>
             pose proof (proj1 (IHv _ _ _ _ E));
             pose proof (proj2 (IHv _ _ _ _ E)); clear E
         | E : json.members _ _ _ = Some _ |- _ =>
             pose proof (proj1 (IHm _ _ _ _ E));
             pose proof (proj2 (IHm _ _ _ _ E)); clear E
         | E : json.elements _ _ _ = Some _ |- _ =>
             pose proof (proj1 (IHe _ _ _ _ E));
             pose proof (proj2 (IHe _ _ _ _ E)); clear E
         end.

Ltac replay :=
  repeat first
    [ match goal with
      | E : ?x = _ |- context [?x] => rewrite E
      end
    | match goal with
      | K : forall f', _ -> ?run f' ?d ?p = Some _ |- context [?run _ ?d ?p] =>
          rewrite K by (lengths; lia)
      end ];
  reflexivity.

Ltac settle IHv IHm IHe H :=
  repeat break_hyp H; try (injection H as <- <-);
  recall IHv IHm IHe;
  (split;
   [ lengths; lia
   | let f' := fresh "f'" in
     let Hf' := fresh "Hf'" in
     intros f' Hf'; destruct f' as [|f'];
     [ lengths; lia
     | cbn [json.value json.members json.elements]; replay ] ]).

Lemma fuel_enough (f : nat) :
  enough json.value f /\ enough json.members f /\ enough json.elements f.
Proof.
  induction f as [|f (IHv & IHm & IHe)].
  - repeat split; discriminate.
  - split; [|split]; intros d p r tl H.
    + cbn [json.value] in H.
      destruct p as [|c rest]; [discriminate|].
      settle IHv IHm IHe H.
    + cbn [json.members] in H.
      destruct p as [|c rest]; [discriminate|].
      settle IHv IHm IHe H.
    + cbn [json.elements] in H.
      settle IHv IHm IHe H.
Qed.

(** The fuel [parse] gives the scanner is enough: a value the scanner
    delimits with any fuel, it delimits with that fuel. *)
Lemma parse_fuel_enough (f : nat) (d : Z) (p : list byte) (v : json.Value)
      (tl : list byte) :
  json.value f d p = Some (v, tl) ->
  json.value (S (List.length p)) d p = Some (v, tl).
Proof.
  intros H. destruct (fuel_enough f) as (Hv & _ & _).
  apply (Hv d p v tl H). lia.
Qed.

Lemma DecodeRune_size (p : list byte) :
  p <> [] -> 1 <= snd (utf8.DecodeRune p) <= 4.
Proof.
  intros Hp. unfold utf8.DecodeRune.
  destruct p as [|c p]; [contradiction|].
  replace (len (c :: p) <? 1) with false
    by (symmetry; apply Z.ltb_ge; unfold len; simpl List.length; lia).
  destruct (utf8.first (at_index (c :: p) 0)); simpl; try lia.
  repeat match goal with
         | |- context [if ?b then _ else _] => destruct b
         end; simpl; lia.
Qed.

Lemma slice_from_shorter (p : list byte) (n : Z) :
  p <> [] -> 1 <= n -> (List.length (slice_from p n) < List.length p)%nat.
Proof.
  intros Hp Hn. unfold slice_from. rewrite length_skipn.
  destruct p; [contradiction|]. simpl List.length. lia.
Qed.

Lemma trimLeftSpace_fuel (f1 : nat) :
  forall f2 p, (List.length p <= f1)%nat -> (List.length p <= f2)%nat ->
               strings.trimLeftSpace f1 p = strings.trimLeftSpace f2 p.
Proof.
  induction f1 as [|f1 IH]; intros f2 p H1 H2.
  - destruct p; [|simpl in H1; lia]. destruct f2; reflexivity.
  - destruct p as [|c p]; [destruct f2; reflexivity|].
    destruct f2 as [|f2]; [simpl in H2; lia|].
    cbn [strings.trimLeftSpace].
    pose proof (DecodeRune_size (c :: p) ltac:(discriminate)) as Hs.
    destruct (utf8.DecodeRune (c :: p)) as [r size]. simpl in Hs.
    destruct (unicode.IsSpace r); [|reflexivity].
    pose proof (slice_from_shorter (c :: p) size ltac:(discriminate)
                                   ltac:(lia)) as Hl.
    simpl List.length in *. apply IH; lia.
Qed.

Lemma scanBack_le (fuel : nat) (p : list byte) :
  forall start lim, utf8.scanBack fuel p start lim <= start.
Proof.
  induction fuel as [|fuel IH]; intros start lim; simpl; [lia|].
  destruct (start <? lim); [lia|].
  destruct (utf8.RuneStart (at_index p start)); [lia|].
  specialize (IH (start - 1) lim). lia.
Qed.

Lemma DecodeLastRune_size (p : list byte) :
  p <> [] -> 1 <= snd (utf8.DecodeLastRune p) <= len p.
Proof.
  intros Hp. unfold utf8.DecodeLastRune.
  assert (1 <= len p) as Hlen
      by (destruct p; [contradiction|]; unfold len; simpl List.length; lia).
  replace (len p =? 0) with false by (symmetry; apply Z.eqb_neq; lia).
  destruct (at_index p (len p - 1) <? utf8.RuneSelf); [simpl; lia|].
  set (start := utf8.scanBack 5 p (len p - 1 - 1) _).
  pose proof (scanBack_le 5 p (len p - 1 - 1)
                          (Z.max 0 (len p - utf8.UTFMax))) as Hsb.
  fold start in Hsb.
  destruct (start <? 0) eqn:Eneg.
  - destruct (utf8.DecodeRune (slice_from p 0)) as [r size].
    destruct (0 + size =? len p) eqn:E; simpl; [|lia].
    apply Z.eqb_eq in E. lia.
  - apply Z.ltb_ge in Eneg.
    destruct (utf8.DecodeRune (slice_from p start)) as [r size].
    destruct (start + size =? len p) eqn:E; simpl; [|lia].
    apply Z.eqb_eq in E. lia.
Qed.

Lemma slice_to_shorter (p : list byte) (n : Z) :
  1 <= n <= len p ->
  (List.length (slice_to p (len p - n)) < List.length p)%nat.
Proof.
  intros Hn. unfold slice_to, len in *. rewrite length_firstn. lia.
Qed.

Lemma trimRightSpace_fuel (f1 : nat) :
  forall f2 p, (List.length p <= f1)%nat -> (List.length p <= f2)%nat ->
               strings.trimRightSpace f1 p = strings.trimRightSpace f2 p.
Proof.
  induction f1 as [|f1 IH]; intros f2 p H1 H2.
  - destruct p; [|simpl in H1; lia]. destruct f2; reflexivity.
  - destruct p as [|c p]; [destruct f2; reflexivity|].
    destruct f2 as [|f2]; [simpl in H2; lia|].
    cbn [strings.trimRightSpace].
    pose proof (DecodeLastRune_size (c :: p) ltac:(discriminate)) as Hs.
    destruct (utf8.DecodeLastRune (c :: p)) as [r size]. simpl snd in Hs.
    destruct (unicode.IsSpace r); [|reflexivity].
    pose proof (slice_to_shorter (c :: p) size Hs) as Hl.
    simpl List.length in *. apply IH; lia.
Qed.

Ltac shorter :=
  unfold slice_from; rewrite ?length_skipn; simpl List.length in *; lia.

Lemma unquote_fuel (f1 : nat) :
  forall f2 s, (List.length s <= f1)%nat -> (List.length s <= f2)%nat ->
               json.unquote f1 s = json.unquote f2 s.
Proof.
  induction f1 as [|f1 IH]; intros f2 s H1 H2.
  - destruct s; [|simpl in H1; lia]. destruct f2; reflexivity.
  - destruct s as [|c rest]; [destruct f2; reflexivity|].
    destruct f2 as [|f2]; [simpl in H2; lia|].
    cbn [json.unquote].
    pose proof (DecodeRune_size (c :: rest) ltac:(discriminate)) as Hs.
    destruct (utf8.DecodeRune (c :: rest)) as [rr size]. simpl snd in Hs.
    repeat match goal with
           | |- context [if ?b then _ else _] => destruct b
           | |- context [match ?x with _ => _ end] => destruct x
           end;
      try reflexivity; cbv zeta; f_equal; apply IH; shorter.
Qed.

Lemma appendFoldedName_fuel (f1 : nat) :
  forall f2 p, (List.length p <= f1)%nat -> (List.length p <= f2)%nat ->
               json.appendFoldedName f1 p = json.appendFoldedName f2 p.
Proof.
  induction f1 as [|f1 IH]; intros f2 p H1 H2.
  - destruct p; [|simpl in H1; lia]. destruct f2; reflexivity.
  - destruct p as [|c rest]; [destruct f2; reflexivity|].
    destruct f2 as [|f2]; [simpl in H2; lia|].
    cbn [json.appendFoldedName].
    pose proof (DecodeRune_size (c :: rest) ltac:(discriminate)) as Hs.
    destruct (utf8.DecodeRune (c :: rest)) as [r n]. simpl snd in Hs.
    destruct (c <? utf8.RuneSelf); f_equal; apply IH; shorter.
Qed.

(** ** The models at work *)

Example TrimSpace_examples :
  strings.TrimSpace (String (ascii_of_nat 9) "  hello world " ++ String (ascii_of_nat 10) "")%string
  = "hello world"
  /\ strings.TrimSpace (String (ascii_of_nat 194) (String (ascii_of_nat 160) "{x"))
     = "{x"
  /\ strings.TrimSpace "   " = ""
  /\ strings.TrimSpace "" = "".
Proof. repeat split; vm_compute; reflexivity. Qed.

Example Unmarshal_examples :
  (* keys match whatever their case, unknown members are skipped *)
  json.Unmarshal (jsonText " {'MESSAGES':[{'Role':'user','CONTENT':'hi'}], 'n':[1,{'b':[]},true]} ")
  = ({| json.Messages := [{| json.Role := "user"; json.Content := "hi" |}] |}, None)
  (* a member of the wrong type is an error *)
  /\ json.Unmarshal (jsonText "{'messages':[{'role':'user','content':42}]}")
     = ({| json.Messages := [{| json.Role := "user"; json.Content := "" |}] |},
        Some (json.UnmarshalTypeError "number"))
  /\ json.Unmarshal (jsonText "{'messages':'none'}")
     = ({| json.Messages := [] |}, Some (json.UnmarshalTypeError "string"))
  (* null stores nothing; a null element is a zero message *)
  /\ json.Unmarshal (jsonText "{'messages':null}") = ({| json.Messages := [] |}, None)
  /\ json.Unmarshal (jsonText "{'messages':[null]}")
     = ({| json.Messages := [{| json.Role := ""; json.Content := "" |}] |}, None)
  (* a repeated member is stored over the first *)
  /\ json.Unmarshal (jsonText "{'messages':[{'role':'system','content':'A'}],'messages':[{'content':'B'}]}")
     = ({| json.Messages := [{| json.Role := "system"; json.Content := "B" |}] |}, None)
  (* not one JSON text *)
  /\ json.Unmarshal (jsonText "{'messages':[],}") = ({| json.Messages := [] |}, Some json.SyntaxError)
  /\ json.Unmarshal (jsonText "{'messages':[]} x") = ({| json.Messages := [] |}, Some json.SyntaxError)
  /\ json.Unmarshal "{not json" = ({| json.Messages := [] |}, Some json.SyntaxError)
  (* vertical tab is white space for TrimSpace, not for JSON *)
  /\ json.Unmarshal (String (ascii_of_nat 11) (jsonText "{'messages':[{'content':'hi'}]}"))
     = ({| json.Messages := [] |}, Some json.SyntaxError).
Proof. repeat split; vm_compute; reflexivity. Qed.

(** ** The two modes of the builder *)

Lemma notEmpty_true (s : string) : notEmpty s = true <-> s <> "".
Proof.
  unfold notEmpty. rewrite negb_true_iff. apply String.eqb_neq.
Qed.

Lemma notEmpty_false (s : string) : notEmpty s = false <-> s = "".
Proof.
  unfold notEmpty. rewrite negb_false_iff. apply String.eqb_eq.
Qed.

Lemma HasPrefix_brace_notEmpty (s : string) :
  strings.HasPrefix s "{" = true -> notEmpty s = true.
Proof.
  destruct s as [|a s]; simpl; [discriminate | reflexivity].
Qed.

Lemma blank_notEmpty (s : string) : blank s -> notEmpty (strings.TrimSpace s) = false.
Proof. intros H. apply notEmpty_false. exact H. Qed.

Lemma appendTurn_specTurn (messages : list oai.ChatCompletionMessageParamUnion)
      (msg : json.Message) :
  openai.appendTurn messages msg = messages ++ [specTurn msg].
Proof.
  unfold openai.appendTurn, specTurn.
  destruct (string_dec (json.Role msg) "system") as [Hs | Hs].
  - apply String.eqb_eq in Hs. rewrite Hs. reflexivity.
  - apply String.eqb_neq in Hs. rewrite Hs.
    destruct (string_dec (json.Role msg) "assistant") as [Ha | Ha].
    + apply String.eqb_eq in Ha. rewrite Ha. reflexivity.
    + apply String.eqb_neq in Ha. rewrite Ha. reflexivity.
Qed.

Lemma fold_appendTurn (msgs : list json.Message) :
  forall messages,
    List.fold_left openai.appendTurn msgs messages
    = messages ++ List.map specTurn msgs.
Proof.
  induction msgs as [|msg msgs IH]; intros messages; simpl.
  - now rewrite app_nil_r.
  - rewrite IH, appendTurn_specTurn, <- app_assoc. reflexivity.
Qed.

(** The builder of the current revision in multi-turn mode. *)
Lemma buildMessages_multi_turn (instructions input : string)
      (msgs : list json.Message) :
  looksStructured input ->
  decodesTo input msgs ->
  msgs <> [] ->
  openai.buildMessages instructions input
  = systemTurn instructions ++ List.map specTurn msgs.
Proof.
  unfold looksStructured, decodesTo. intros Hbrace Hdec Hne.
  unfold openai.buildMessages.
  rewrite Hbrace, (HasPrefix_brace_notEmpty _ Hbrace), Hdec. simpl.
  destruct msgs as [|m msgs]; [contradiction|].
  cbn [List.length Z.of_nat Z.ltb Z.compare andb negb].
  rewrite fold_appendTurn. unfold systemTurn.
  destruct (notEmpty instructions); reflexivity.
Qed.

(** The builder of the current revision outside multi-turn mode. *)
Lemma buildMessages_plain_text (instructions input : string) :
  ~ looksStructured input
  \/ failsToDecode input
  \/ decodesTo input [] ->
  openai.buildMessages instructions input
  = systemTurn instructions
    ++ (if notEmpty (strings.TrimSpace input)
        then [oai.UserMessage input] else []).
Proof.
  unfold looksStructured, failsToDecode, decodesTo, openai.buildMessages, systemTurn.
  intros [Hno | [(payload & e & Hfail) | Hzero]].
  - apply not_true_is_false in Hno. rewrite Hno, andb_false_r. simpl.
    destruct (notEmpty (strings.TrimSpace input)), (notEmpty instructions);
      reflexivity.
  - rewrite Hfail.
    destruct (notEmpty (strings.TrimSpace input)
              && strings.HasPrefix (strings.TrimSpace input) "{"); simpl;
      destruct (notEmpty (strings.TrimSpace input)), (notEmpty instructions);
      reflexivity.
  - rewrite Hzero.
    destruct (notEmpty (strings.TrimSpace input)
              && strings.HasPrefix (strings.TrimSpace input) "{"); simpl;
      destruct (notEmpty (strings.TrimSpace input)), (notEmpty instructions);
      reflexivity.
Qed.

(** Every input is in exactly one of the two modes. *)
Lemma mode_cases (input : string) :
  (looksStructured input
   /\ exists msgs, decodesTo input msgs /\ msgs <> [])
  \/ (~ looksStructured input \/ failsToDecode input \/ decodesTo input []).
Proof.
  unfold looksStructured, failsToDecode, decodesTo.
  destruct (strings.HasPrefix (strings.TrimSpace input) "{") eqn:Hb.
  - destruct (json.Unmarshal input) as [[msgs] [e|]] eqn:Hu.
    + right. right. left. eauto.
    + destruct msgs as [|m msgs].
      * right. right. right. reflexivity.
      * left. split; [reflexivity|]. exists (m :: msgs). split; [reflexivity | discriminate].
  - right. left. discriminate.
Qed.

(** ** Multi-turn mode *)

Lemma sample_looksStructured : looksStructured sample.
Proof. vm_compute. reflexivity. Qed.

Lemma sample_decodes : decodesTo sample sampleMessages.
Proof. vm_compute. reflexivity. Qed.

(** C1, earlier revision: on the sample input, which looks structured and
    decodes to four messages, the builder of
    [services/llm/openai/service.go] appends no expanded turn at all and
    appends the raw input as a user turn, where the current revision builds
    the four expanded turns and nothing else. *)
Theorem C1_basic_revision_appends_raw_input :
  looksStructured sample
  /\ decodesTo sample sampleMessages
  /\ openai_basic.buildMessages "" sample = [oai.UserMessage sample]
  /\ openai.buildMessages "" sample = sampleTurns.
Proof.
  split; [exact sample_looksStructured|].
  split; [exact sample_decodes|].
  split; vm_compute; reflexivity.
Qed.

(** Current revision: for every input that looks structured and decodes to
    a non-empty message sequence, the builder appends the expanded turns
    only; the sequence with the plain-text user turn after them is not what
    it builds. *)
Theorem multi_turn_suppresses_fallback (instructions input : string)
        (msgs : list json.Message) :
  looksStructured input ->
  decodesTo input msgs ->
  msgs <> [] ->
  openai.buildMessages instructions input
  = systemTurn instructions ++ List.map specTurn msgs
  /\ openai.buildMessages instructions input
     <> systemTurn instructions ++ List.map specTurn msgs
        ++ [oai.UserMessage input].
Proof.
  intros Hb Hd Hne.
  pose proof (buildMessages_multi_turn instructions input msgs Hb Hd Hne) as E.
  split; [exact E|].
  rewrite E. intros Heq.
  apply (f_equal (@List.length _)) in Heq.
  rewrite !length_app in Heq. simpl in Heq. lia.
Qed.

Lemma multi_turn_suppresses_fallback_witness :
  openai.buildMessages "Be brief." sample
  = systemTurn "Be brief." ++ List.map specTurn sampleMessages
  /\ openai.buildMessages "Be brief." sample
     <> systemTurn "Be brief." ++ List.map specTurn sampleMessages
        ++ [oai.UserMessage sample].
Proof.
  apply (multi_turn_suppresses_fallback "Be brief." sample sampleMessages).
  - vm_compute. reflexivity.
  - vm_compute. reflexivity.
  - discriminate.
Defined.

(** C4, as stated, fails: all-white-space instructions are blank, and with
    them the sample input gives a leading system turn before the four
    expanded ones. *)
Lemma C4_blank_instructions_counterexample :
  blank "  "
  /\ openai.buildMessages "  " sample = oai.SystemMessage "  " :: sampleTurns.
Proof. split; vm_compute; reflexivity. Qed.

(** C4, amended: in multi-turn mode the builder appends one turn per decoded
    message, in the decoded order, by the three-way role mapping (a message
    without a role becomes a user turn); with empty instructions the sample
    input gives exactly [system:A, user:B, assistant:C, user:D], and with
    any instructions those four turns after what the instructions gave. *)
Theorem C4_multi_turn_expansion :
  (forall (instructions input : string) (msgs : list json.Message),
      looksStructured input ->
      decodesTo input msgs ->
      msgs <> [] ->
      openai.buildMessages instructions input
      = systemTurn instructions ++ List.map specTurn msgs)
  /\ openai.buildMessages "" sample = sampleTurns
  /\ (forall instructions : string,
         openai.buildMessages instructions sample
         = systemTurn instructions ++ sampleTurns)
  /\ openai.buildMessages "" (jsonText "{'messages':[{'content':'E'}]}")
     = [oai.UserMessage "E"].
Proof.
  split; [exact buildMessages_multi_turn|].
  split; [vm_compute; reflexivity|].
  split; [|vm_compute; reflexivity].
  intros instructions.
  rewrite (buildMessages_multi_turn instructions sample sampleMessages
             sample_looksStructured sample_decodes); [reflexivity | discriminate].
Qed.

(** ** Plain-text mode *)

(** C5, earlier revision: the builder of [services/llm/openai/service.go]
    appends a user turn for a blank input too, where the current revision
    appends none. *)
Theorem C5_basic_revision_turn_for_blank_input :
  blank "   "
  /\ openai_basic.buildMessages "" "   " = [oai.UserMessage "   "]
  /\ openai.buildMessages "" "   " = [].
Proof. repeat split; vm_compute; reflexivity. Qed.

(** Current revision: outside multi-turn mode a non-blank input gives
    exactly one user turn holding the input as it came, untrimmed, and a
    blank input gives no turn. *)
Theorem plain_text_mode (instructions input : string) :
  ~ looksStructured input \/ failsToDecode input \/ decodesTo input [] ->
  (~ blank input ->
   openai.buildMessages instructions input
   = systemTurn instructions ++ [oai.UserMessage input])
  /\ (blank input ->
      openai.buildMessages instructions input = systemTurn instructions).
Proof.
  intros Hmode.
  rewrite (buildMessages_plain_text instructions input Hmode).
  split; intros Hb.
  - apply notEmpty_true in Hb. rewrite Hb. reflexivity.
  - rewrite (blank_notEmpty _ Hb). apply app_nil_r.
Qed.

Lemma plain_text_mode_witness :
  (~ blank "  hello " ->
   openai.buildMessages "Be brief." "  hello "
   = systemTurn "Be brief." ++ [oai.UserMessage "  hello "])
  /\ (blank "  hello " ->
      openai.buildMessages "Be brief." "  hello " = systemTurn "Be brief.").
Proof.
  apply (plain_text_mode "Be brief." "  hello ").
  left. unfold looksStructured. vm_compute. discriminate.
Defined.

(** The decoder is given the input as it came, not the trimmed value: a
    vertical tab before the brace is white space for [TrimSpace] and a
    syntax error for the decoder, and the input is handled as plain text. *)
Theorem decoder_reads_untrimmed_input :
  let input := String (ascii_of_nat 11) sample in
  looksStructured input
  /\ decodesTo (strings.TrimSpace input) sampleMessages
  /\ failsToDecode input
  /\ openai.buildMessages "" input = [oai.UserMessage input].
Proof.
  cbv zeta. split; [vm_compute; reflexivity|].
  split; [vm_compute; reflexivity|].
  split; [|vm_compute; reflexivity].
  eexists _, _. vm_compute. reflexivity.
Qed.

(** C8: an input that looks structured but fails to decode, or decodes to no
    message, gives exactly one user turn holding the input as it came; the
    builder has no error result to give. *)
Theorem C8_decode_failure_falls_back (instructions input : string) :
  looksStructured input ->
  failsToDecode input \/ decodesTo input [] ->
  openai.buildMessages instructions input
  = systemTurn instructions ++ [oai.UserMessage input].
Proof.
  intros Hb Hmode.
  rewrite (buildMessages_plain_text instructions input (or_intror Hmode)).
  rewrite (HasPrefix_brace_notEmpty _ Hb). reflexivity.
Qed.

Lemma C8_decode_failure_falls_back_witness :
  openai.buildMessages "" (jsonText "{'foo':'bar'}")
  = systemTurn "" ++ [oai.UserMessage (jsonText "{'foo':'bar'}")].
Proof.
  apply (C8_decode_failure_falls_back "" (jsonText "{'foo':'bar'}")).
  - vm_compute. reflexivity.
  - right. vm_compute. reflexivity.
Defined.

(** ** The instructions *)

Lemma buildMessages_instructions (instructions input : string) :
  openai.buildMessages instructions input
  = systemTurn instructions ++ openai.buildMessages "" input.
Proof.
  destruct (mode_cases input) as [(Hb & msgs & Hd & Hne) | Hmode].
  - rewrite !(buildMessages_multi_turn _ input msgs Hb Hd Hne). reflexivity.
  - rewrite !(buildMessages_plain_text _ input Hmode). reflexivity.
Qed.

(** C6, as stated, fails: instructions of white space only are blank, and
    the builder still appends a system turn holding them (both revisions). *)
Lemma C6_whitespace_instructions_counterexample :
  blank "  "
  /\ openai.buildMessages "  " "hi"
     = [oai.SystemMessage "  "; oai.UserMessage "hi"]
  /\ openai_basic.buildMessages "  " "hi"
     = [oai.SystemMessage "  "; oai.UserMessage "hi"].
Proof. repeat split; vm_compute; reflexivity. Qed.

(** C6, amended: the builder appends a leading system turn with content
    equal to the instructions if and only if the instructions are not the
    empty string; they are not trimmed.  What follows that turn is what the
    input alone gives. *)
Theorem C6_system_turn_iff_not_empty (instructions input : string) :
  openai.buildMessages instructions input
  = (if string_dec instructions "" then []
     else [oai.SystemMessage instructions])
    ++ openai.buildMessages "" input
  /\ openai_basic.buildMessages instructions input
     = (if string_dec instructions "" then []
        else [oai.SystemMessage instructions])
       ++ openai_basic.buildMessages "" input.
Proof.
  split.
  - rewrite buildMessages_instructions. unfold systemTurn.
    destruct (string_dec instructions "") as [E | N].
    + apply notEmpty_false in E. rewrite E. reflexivity.
    + apply notEmpty_true in N. rewrite N. reflexivity.
  - unfold openai_basic.buildMessages.
    destruct (string_dec instructions "") as [E | N].
    + apply notEmpty_false in E. rewrite E. reflexivity.
    + apply notEmpty_true in N. rewrite N.
      destruct (notEmpty (strings.TrimSpace input)
                && strings.HasPrefix (strings.TrimSpace input) "{");
        reflexivity.
Qed.

(** ** The built sequence is empty only when there is nothing to say *)

Lemma blank_empty : blank "".
Proof. vm_compute. reflexivity. Qed.

Lemma looksStructured_not_blank (input : string) :
  looksStructured input -> ~ blank input.
Proof.
  intros Hb. apply notEmpty_true. exact (HasPrefix_brace_notEmpty _ Hb).
Qed.

Lemma buildMessages_empty_iff (instructions input : string) :
  openai.buildMessages instructions input = []
  <-> instructions = "" /\ blank input.
Proof.
  destruct (mode_cases input) as [(Hb & msgs & Hd & Hne) | Hmode].
  - rewrite (buildMessages_multi_turn _ input msgs Hb Hd Hne).
    split.
    + intros E. apply app_eq_nil in E as [_ E].
      apply map_eq_nil in E. contradiction.
    + intros [_ Hblank]. destruct (looksStructured_not_blank _ Hb Hblank).
  - rewrite (buildMessages_plain_text _ input Hmode). unfold systemTurn, blank.
    split.
    + intros E. apply app_eq_nil in E as [E1 E2]. split.
      * apply notEmpty_false. destruct (notEmpty instructions); [discriminate | reflexivity].
      * apply notEmpty_false.
        destruct (notEmpty (strings.TrimSpace input)); [discriminate | reflexivity].
    + intros [E1 E2]. apply notEmpty_false in E1, E2. rewrite E1, E2. reflexivity.
Qed.

(** C7, as stated, fails: with instructions of white space only and an
    empty input both are blank, and the built sequence is not empty. *)
Lemma C7_both_blank_counterexample :
  blank "  " /\ blank ""
  /\ openai.buildMessages "  " "" = [oai.SystemMessage "  "].
Proof. repeat split; vm_compute; reflexivity. Qed.

(** C7, amended: the built sequence is non-empty whenever the instructions
    or the input are non-blank, and it is empty exactly when the
    instructions are the empty string and the input is blank. *)
Theorem C7_empty_exactly_when (instructions input : string) :
  (~ blank instructions \/ ~ blank input ->
   openai.buildMessages instructions input <> [])
  /\ (openai.buildMessages instructions input = []
      <-> instructions = "" /\ blank input).
Proof.
  split; [|apply buildMessages_empty_iff].
  intros Hnb E. apply buildMessages_empty_iff in E as [Ei Hin].
  destruct Hnb as [Hn | Hn].
  - apply Hn. rewrite Ei. exact blank_empty.
  - exact (Hn Hin).
Qed.

(** ** Roles are compared byte for byte *)

Lemma appendTurn_other_role
      (messages : list oai.ChatCompletionMessageParamUnion)
      (msg : json.Message) :
  json.Role msg <> "system" ->
  json.Role msg <> "assistant" ->
  openai.appendTurn messages msg
  = messages ++ [oai.UserMessage (json.Content msg)].
Proof.
  intros Hs Ha. unfold openai.appendTurn.
  apply String.eqb_neq in Hs, Ha. rewrite Hs, Ha. reflexivity.
Qed.

(** C10: a decoded message whose role is [system] or [assistant] but for
    the case of its letters becomes a user turn, as does any role that is
    not one of the two literals byte for byte; so [System], [SYSTEM] and
    [Assistant] in a structured input all give user turns. *)
Theorem C10_role_match_is_case_sensitive :
  (forall (messages : list oai.ChatCompletionMessageParamUnion)
          (msg : json.Message),
      differsInCaseOnly (json.Role msg) "system"
      \/ differsInCaseOnly (json.Role msg) "assistant" ->
      openai.appendTurn messages msg
      = messages ++ [oai.UserMessage (json.Content msg)])
  /\ (forall (messages : list oai.ChatCompletionMessageParamUnion)
             (msg : json.Message),
         json.Role msg <> "system" ->
         json.Role msg <> "assistant" ->
         openai.appendTurn messages msg
         = messages ++ [oai.UserMessage (json.Content msg)])
  /\ differsInCaseOnly "System" "system"
  /\ differsInCaseOnly "SYSTEM" "system"
  /\ differsInCaseOnly "Assistant" "assistant"
  /\ openai.buildMessages "" caseSample
     = [oai.UserMessage "A"; oai.UserMessage "B"; oai.UserMessage "C"].
Proof.
  split.
  { intros messages msg [[Hne Hlow] | [Hne Hlow]];
      apply appendTurn_other_role; try exact Hne;
      intros E; rewrite E in Hlow; vm_compute in Hlow; discriminate. }
  split; [exact appendTurn_other_role|].
  repeat split; try discriminate; vm_compute; reflexivity.
Qed.

(** * The response and error normalizer *)

Lemma error_basic_same (err : errors.error) (instructions input : string) :
  openai_basic.error err instructions input
  = openai.error err instructions input.
Proof. reflexivity. Qed.

(** C2: whatever the completion call fails with, [Response] returns no
    result and the error the method [error] makes of it, a ServiceError
    that carries the text of the original error and the instructions and
    input of the call; its code is Credentials for a provider API error
    with status 401, RateLimit for one with status 429, and Unknown for a
    provider API error with any other status and for an error that is no
    provider API error.  Both revisions normalize alike. *)
Theorem C2_error_normalizer (err : errors.error) (instructions input : string) :
  exists se : ai.ServiceError,
    openai.error err instructions input = errors.serviceError se
    /\ openai_basic.error err instructions input = errors.serviceError se
    /\ (forall (endpoint : Endpoint) (s : openai.service) (maxTokens : Z),
           endpoint (openai.client s)
                    (request (openai.model s) instructions input maxTokens)
           = Failed err ->
           openai.Response endpoint s instructions input maxTokens
           = (None, Some (errors.serviceError se)))
    /\ (forall (endpoint : Endpoint) (s : openai_basic.service)
               (maxTokens : Z),
           endpoint (openai_basic.client s)
                    (request_basic (openai_basic.model s) instructions input
                                   maxTokens)
           = Failed err ->
           openai_basic.Response endpoint s instructions input maxTokens
           = (None, Some (errors.serviceError se)))
    /\ ai.Message se = errors.Error err
    /\ ai.Instructions se = instructions
    /\ ai.Input se = input
    /\ (isAPIError err 401 -> ai.Code se = ai.ErrorCredentials)
    /\ (isAPIError err 429 -> ai.Code se = ai.ErrorRateLimit)
    /\ (forall status, isAPIError err status -> status <> 401 ->
                       status <> 429 -> ai.Code se = ai.ErrorUnknown)
    /\ (notAPIError err -> ai.Code se = ai.ErrorUnknown).
Proof.
  unfold openai.Response, openai_basic.Response, openai_basic.error,
    openai.error, isAPIError, notAPIError.
  eexists. split; [reflexivity|]. split; [reflexivity|].
  split; [intros endpoint s maxTokens E; unfold request in E; rewrite E;
          reflexivity|].
  split; [intros endpoint s maxTokens E; unfold request_basic in E; rewrite E;
          reflexivity|].
  cbn [ai.Message ai.Instructions ai.Input ai.Code].
  split; [reflexivity|]. split; [reflexivity|]. split; [reflexivity|].
  destruct (errors.As err) as [aerr|].
  - split; [|split; [|split]].
    + intros (a & E & Hst). injection E as ->. rewrite Hst. reflexivity.
    + intros (a & E & Hst). injection E as ->. rewrite Hst. reflexivity.
    + intros status (a & E & Hst) H401 H429. injection E as ->.
      unfold http.StatusUnauthorized, http.StatusTooManyRequests.
      rewrite Hst.
      destruct (Z.eqb_spec status 401); [contradiction|].
      destruct (Z.eqb_spec status 429); [contradiction|]. reflexivity.
    + discriminate.
  - split; [|split; [|split]].
    + intros (a & E & _). discriminate.
    + intros (a & E & _). discriminate.
    + intros status (a & E & _). discriminate.
    + reflexivity.
Qed.

Example error_codes :
  let unauthorized := errors.apiError {| oai.StatusCode := 401; oai.text := "401 Unauthorized" |} in
  let throttled := errors.apiError {| oai.StatusCode := 429; oai.text := "429 Too Many Requests" |} in
  let broken := errors.apiError {| oai.StatusCode := 500; oai.text := "500 Internal Server Error" |} in
  openai.error unauthorized "i" "in"
  = errors.serviceError {| ai.Message := "401 Unauthorized"; ai.Code := ai.ErrorCredentials;
                           ai.Instructions := "i"; ai.Input := "in" |}
  /\ openai.error (errors.wrapError "call failed: 429 Too Many Requests" (Some throttled)) "i" "in"
     = errors.serviceError {| ai.Message := "call failed: 429 Too Many Requests";
                              ai.Code := ai.ErrorRateLimit;
                              ai.Instructions := "i"; ai.Input := "in" |}
  /\ openai.error broken "i" "in"
     = errors.serviceError {| ai.Message := "500 Internal Server Error"; ai.Code := ai.ErrorUnknown;
                              ai.Instructions := "i"; ai.Input := "in" |}
  /\ openai.error (errors.errorString "context deadline exceeded") "i" "in"
     = errors.serviceError {| ai.Message := "context deadline exceeded"; ai.Code := ai.ErrorUnknown;
                              ai.Instructions := "i"; ai.Input := "in" |}.
Proof. repeat split. Qed.

(** C3: when the completion call succeeds, [Response] returns a result and
    a nil error: the empty text and no tokens when the response has no
    choice, and otherwise the content of the first choice's message with
    the response's total token count, whatever the other choices are.
    Both revisions. *)
Theorem C3_success_path (endpoint : Endpoint) (instructions input : string)
        (maxTokens : Z) (resp : oai.ChatCompletion) :
  (forall s : openai.service,
      endpoint (openai.client s)
               (request (openai.model s) instructions input maxTokens)
      = Completed resp ->
      (oai.Choices resp = [] ->
       openai.Response endpoint s instructions input maxTokens
       = (Some {| flows.Output := ""; flows.TokensUsed := 0 |}, None))
      /\ (forall first others,
             oai.Choices resp = first :: others ->
             openai.Response endpoint s instructions input maxTokens
             = (Some {| flows.Output := oai.Content (oai.Message first);
                        flows.TokensUsed := oai.TotalTokens (oai.Usage resp) |},
                None)))
  /\ (forall s : openai_basic.service,
         endpoint (openai_basic.client s)
                  (request_basic (openai_basic.model s) instructions input
                                 maxTokens)
         = Completed resp ->
         (oai.Choices resp = [] ->
          openai_basic.Response endpoint s instructions input maxTokens
          = (Some {| flows.Output := ""; flows.TokensUsed := 0 |}, None))
         /\ (forall first others,
                oai.Choices resp = first :: others ->
                openai_basic.Response endpoint s instructions input maxTokens
                = (Some {| flows.Output := oai.Content (oai.Message first);
                           flows.TokensUsed := oai.TotalTokens (oai.Usage resp) |},
                   None))).
Proof.
  split; intros s E.
  - unfold openai.Response. unfold request in E. rewrite E.
    split; [intros -> | intros first others ->]; reflexivity.
  - unfold openai_basic.Response. unfold request_basic in E. rewrite E.
    split; [intros -> | intros first others ->]; reflexivity.
Qed.

Example Response_examples :
  let s := {| openai.client := oai.NewClient []; openai.model := "gpt-4o" |} in
  let choice (c : string) := {| oai.Message := {| oai.Content := c |} |} in
  openai.Response
    (fun _ _ => Completed {| oai.Choices := [];
                             oai.Usage := {| oai.TotalTokens := 12 |} |})
    s "Be brief." "hi" 100
  = (Some {| flows.Output := ""; flows.TokensUsed := 0 |}, None)
  /\ openai.Response
       (fun _ _ => Completed {| oai.Choices := [choice "hello"; choice "bye"];
                                oai.Usage := {| oai.TotalTokens := 12 |} |})
       s "Be brief." "hi" 100
     = (Some {| flows.Output := "hello"; flows.TokensUsed := 12 |}, None).
Proof. split; reflexivity. Qed.

(** * Construction *)

(** C9: when the configuration gives no API key (the key is missing, holds
    no string, or holds the empty string), [New] returns no service and a
    plain error, not a ServiceError; when it gives one, [New] returns a
    service and a nil error.  Both revisions. *)
Theorem C9_New_needs_api_key (m : models.LLM) (c : http.Client) :
  let apiKey := models.GetString (models.Config_ m) "api_key" "" in
  (apiKey = "" ->
   let err := errors.errorString
                ("config incomplete for LLM: " ++ models.UUID m)%string in
   openai.New m c = (None, Some err)
   /\ openai_basic.New m c = (None, Some err)
   /\ (forall se, err <> errors.serviceError se))
  /\ (apiKey <> "" ->
      (exists s, openai.New m c = (Some s, None))
      /\ (exists s, openai_basic.New m c = (Some s, None)))
  /\ (models.Config_ m !! "api_key" = None -> apiKey = "").
Proof.
  cbv zeta. split; [|split].
  - intros E. unfold openai.New, openai_basic.New, openai.configAPIKey,
      openai_basic.configAPIKey. rewrite E. simpl.
    repeat split; discriminate.
  - intros N. apply String.eqb_neq in N.
    unfold openai.New, openai_basic.New, openai.configAPIKey,
      openai_basic.configAPIKey. rewrite N.
    split; eexists; reflexivity.
  - intros E. unfold models.GetString. rewrite E. reflexivity.
Qed.

Example New_examples :
  let c := {| http.transport := 0 |} in
  let llm (cfg : gmap string models.ConfigValue) :=
    {| models.UUID := "14115c03"; models.Model := "gpt-4o"; models.Config_ := cfg |} in
  openai.New (llm ∅) c
  = (None, Some (errors.errorString "config incomplete for LLM: 14115c03"))
  /\ openai.New (llm {[ "api_key" := models.VString "" ]}) c
     = (None, Some (errors.errorString "config incomplete for LLM: 14115c03"))
  /\ openai.New (llm {[ "api_key" := models.VString "sesame" ]}) c
     = (Some {| openai.client :=
                  oai.NewClient [oai.WithAPIKey "sesame"; oai.WithHTTPClient c];
                openai.model := "gpt-4o" |}, None)
  /\ openai.New (llm (<[ "endpoint" := models.VString "http://localhost:18789/v1" ]>
                        {[ "api_key" := models.VString "sesame" ]})) c
     = (Some {| openai.client :=
                  oai.NewClient [oai.WithAPIKey "sesame"; oai.WithHTTPClient c;
                                 oai.WithBaseURL "http://localhost:18789/v1"];
                openai.model := "gpt-4o" |}, None).
Proof. repeat split; vm_compute; reflexivity. Qed.

(** * More on the normalizer *)

(** [Response] fails exactly when the completion call fails, and then with
    a ServiceError for this call; otherwise it returns a result and no error.
    Both revisions. *)
Theorem Response_fails_iff_endpoint_fails (endpoint : Endpoint)
        (instructions input : string) (maxTokens : Z) :
  (forall s : openai.service,
      let outcome := endpoint (openai.client s)
                       (request (openai.model s) instructions input maxTokens) in
      let result := openai.Response endpoint s instructions input maxTokens in
      ((exists err, outcome = Failed err)
       <-> exists e, result = (None, Some e))
      /\ ((exists resp, outcome = Completed resp)
          <-> exists r, result = (Some r, None))
      /\ (forall e, snd result = Some e ->
                    exists se, e = errors.serviceError se
                               /\ ai.Instructions se = instructions
                               /\ ai.Input se = input))
  /\ (forall s : openai_basic.service,
         let outcome := endpoint (openai_basic.client s)
                          (request_basic (openai_basic.model s) instructions
                                         input maxTokens) in
         let result :=
           openai_basic.Response endpoint s instructions input maxTokens in
         ((exists err, outcome = Failed err)
          <-> exists e, result = (None, Some e))
         /\ ((exists resp, outcome = Completed resp)
             <-> exists r, result = (Some r, None))
         /\ (forall e, snd result = Some e ->
                       exists se, e = errors.serviceError se
                                  /\ ai.Instructions se = instructions
                                  /\ ai.Input se = input)).
Proof.
  split; intros s; cbv zeta.
  - unfold openai.Response, request.
    destruct (endpoint _ _) as [resp | err].
    + destruct (oai.Choices resp) as [|choice others];
        (split; [split; intros [x E]; discriminate|]);
        (split; [split; intros _; eexists; reflexivity|]);
        intros e E; discriminate.
    + split; [split; intros _; eexists; reflexivity|].
      split; [split; intros [x E]; discriminate|].
      intros e E. injection E as <-. eexists. split; [reflexivity|].
      split; reflexivity.
  - unfold openai_basic.Response, request_basic.
    destruct (endpoint _ _) as [resp | err].
    + destruct (oai.Choices resp) as [|choice others];
        (split; [split; intros [x E]; discriminate|]);
        (split; [split; intros _; eexists; reflexivity|]);
        intros e E; discriminate.
    + split; [split; intros _; eexists; reflexivity|].
      split; [split; intros [x E]; discriminate|].
      intros e E. injection E as <-. eexists. split; [reflexivity|].
      split; reflexivity.
Qed.

Lemma codeOf_spec (err : errors.error) (instructions input : string) :
  openai.error err instructions input
  = errors.serviceError
      {| ai.Message := errors.Error err; ai.Code := codeOf err;
         ai.Instructions := instructions; ai.Input := input |}.
Proof. reflexivity. Qed.

(** The code of the normalized error tells the status: it is Credentials
    exactly for a provider API error with status 401, RateLimit exactly for
    one with status 429, and Unknown exactly in all other cases. *)
Theorem error_code_iff (err : errors.error) :
  (codeOf err = ai.ErrorCredentials <-> isAPIError err 401)
  /\ (codeOf err = ai.ErrorRateLimit <-> isAPIError err 429)
  /\ (codeOf err = ai.ErrorUnknown
      <-> ~ isAPIError err 401 /\ ~ isAPIError err 429).
Proof.
  unfold codeOf, openai.error, isAPIError.
  cbn [ai.Code]. unfold http.StatusUnauthorized, http.StatusTooManyRequests.
  destruct (errors.As err) as [aerr|].
  - destruct (Z.eqb_spec (oai.StatusCode aerr) 401) as [E1 | N1].
    + split; [|split].
      * split; [eauto | reflexivity].
      * split; [discriminate | intros (a & E & H); injection E as ->; lia].
      * split; [discriminate | intros [H _]; exfalso; apply H; eauto].
    + destruct (Z.eqb_spec (oai.StatusCode aerr) 429) as [E2 | N2].
      * split; [|split].
        -- split; [discriminate | intros (a & E & H); injection E as ->; lia].
        -- split; [eauto | reflexivity].
        -- split; [discriminate | intros [_ H]; exfalso; apply H; eauto].
      * split; [|split].
        -- split; [discriminate | intros (a & E & H); injection E as ->; lia].
        -- split; [discriminate | intros (a & E & H); injection E as ->; lia].
        -- split; [|reflexivity]. intros _.
           split; intros (a & E & H); injection E as ->; lia.
  - split; [|split].
    + split; [discriminate | intros (a & E & _); discriminate].
    + split; [discriminate | intros (a & E & _); discriminate].
    + split; [|reflexivity]. intros _.
      split; intros (a & E & _); discriminate.
Qed.

(** Wrapping does not change what an error is: an error that wraps another
    gets the code of the wrapped one and its own text as the message; an
    error that wraps nothing is Unknown; joined errors get the code of the
    first of them that holds a provider API error. *)
Theorem error_code_through_wrapping :
  (forall msg err instructions input,
      openai.error (errors.wrapError msg (Some err)) instructions input
      = errors.serviceError
          {| ai.Message := msg; ai.Code := codeOf err;
             ai.Instructions := instructions; ai.Input := input |})
  /\ (forall msg, codeOf (errors.wrapError msg None) = ai.ErrorUnknown)
  /\ (forall err errs,
         errors.As err <> None ->
         codeOf (errors.joinError (err :: errs)) = codeOf err)
  /\ (forall err errs,
         errors.As err = None ->
         codeOf (errors.joinError (err :: errs))
         = codeOf (errors.joinError errs))
  /\ codeOf (errors.joinError []) = ai.ErrorUnknown.
Proof.
  split; [reflexivity|]. split; [reflexivity|].
  split; [|split; [|reflexivity]].
  - intros err errs H. unfold codeOf, openai.error. cbn [errors.As].
    destruct (errors.As err); [reflexivity | contradiction].
  - intros err errs H. unfold codeOf, openai.error. cbn [errors.As].
    rewrite H. reflexivity.
Qed.

(** * More on construction *)

(** With an API key, the client of the new service is made from the key
    and the injected HTTP client, in this order, followed by the base URL
    exactly when the configuration holds a non-empty [endpoint]; the model
    is the LLM's.  The earlier revision never sets a base URL. *)
Theorem New_client_options (m : models.LLM) (c : http.Client) :
  let apiKey := models.GetString (models.Config_ m) "api_key" "" in
  let endpoint := models.GetString (models.Config_ m) "endpoint" "" in
  apiKey <> "" ->
  (exists s,
      openai.New m c = (Some s, None)
      /\ openai.model s = models.Model m
      /\ oai.options (openai.client s)
         = [oai.WithAPIKey apiKey; oai.WithHTTPClient c]
             ++ (if string_dec endpoint "" then []
                 else [oai.WithBaseURL endpoint])
      /\ (forall url, In (oai.WithBaseURL url) (oai.options (openai.client s))
                      <-> url = endpoint /\ endpoint <> ""))
  /\ (exists s,
         openai_basic.New m c = (Some s, None)
         /\ openai_basic.model s = models.Model m
         /\ oai.options (openai_basic.client s)
            = [oai.WithAPIKey apiKey; oai.WithHTTPClient c]).
Proof.
  cbv zeta. intros Hkey. apply String.eqb_neq in Hkey.
  unfold openai.New, openai_basic.New, openai.configAPIKey,
    openai_basic.configAPIKey, openai.configEndpoint.
  rewrite Hkey. split.
  - eexists. split; [reflexivity|]. split; [reflexivity|].
    cbn [openai.client oai.options].
    destruct (string_dec (models.GetString (models.Config_ m) "endpoint" "") "")
      as [E | N].
    + pose proof E as E'. apply notEmpty_false in E'. rewrite E'.
      split; [reflexivity|]. intros url. simpl. split.
      * intros [H | [H | []]]; discriminate.
      * intros [_ H]. contradiction.
    + pose proof N as N'. apply notEmpty_true in N'. rewrite N'.
      split; [reflexivity|]. intros url. simpl. split.
      * intros [H | [H | [H | []]]]; try discriminate.
        injection H as <-. split; [reflexivity | exact N].
      * intros [-> _]. right. right. left. reflexivity.
  - eexists. split; [reflexivity|]. split; reflexivity.
Qed.

Lemma New_client_options_witness :
  let m := {| models.UUID := "14115c03"; models.Model := "gpt-4o";
              models.Config_ :=
                <[ "endpoint" := models.VString "http://localhost:18789/v1" ]>
                  {[ "api_key" := models.VString "sesame" ]} |} in
  let c := {| http.transport := 0 |} in
  let apiKey := models.GetString (models.Config_ m) "api_key" "" in
  let endpoint := models.GetString (models.Config_ m) "endpoint" "" in
  (exists s,
      openai.New m c = (Some s, None)
      /\ openai.model s = models.Model m
      /\ oai.options (openai.client s)
         = [oai.WithAPIKey apiKey; oai.WithHTTPClient c]
             ++ (if string_dec endpoint "" then []
                 else [oai.WithBaseURL endpoint])
      /\ (forall url, In (oai.WithBaseURL url) (oai.options (openai.client s))
                      <-> url = endpoint /\ endpoint <> ""))
  /\ (exists s,
         openai_basic.New m c = (Some s, None)
         /\ openai_basic.model s = models.Model m
         /\ oai.options (openai_basic.client s)
            = [oai.WithAPIKey apiKey; oai.WithHTTPClient c]).
Proof.
  cbv zeta.
  apply (New_client_options
           {| models.UUID := "14115c03"; models.Model := "gpt-4o";
              models.Config_ :=
                <[ "endpoint" := models.VString "http://localhost:18789/v1" ]>
                  {[ "api_key" := models.VString "sesame" ]} |}
           {| http.transport := 0 |}).
  vm_compute. discriminate.
Defined.

(** * More on the message builder *)

(** The earlier revision builds the instructions' system turn and the raw
    input as a user turn, whatever the input.  On an input that is not blank
    and not in multi-turn mode both revisions build the same sequence; on a
    blank input the earlier one builds one turn more, the blank user turn. *)
Theorem revisions_compared (instructions input : string) :
  openai_basic.buildMessages instructions input
  = systemTurn instructions ++ [oai.UserMessage input]
  /\ (~ blank input ->
      ~ looksStructured input \/ failsToDecode input \/ decodesTo input [] ->
      openai.buildMessages instructions input
      = openai_basic.buildMessages instructions input)
  /\ (blank input ->
      openai_basic.buildMessages instructions input
      = openai.buildMessages instructions input ++ [oai.UserMessage input]).
Proof.
  assert (openai_basic.buildMessages instructions input
          = systemTurn instructions ++ [oai.UserMessage input]) as E.
  { unfold openai_basic.buildMessages, systemTurn.
    destruct (notEmpty instructions);
      destruct (notEmpty (strings.TrimSpace input)
                && strings.HasPrefix (strings.TrimSpace input) "{");
      reflexivity. }
  split; [exact E|]. rewrite E. split.
  - intros Hnb Hmode.
    rewrite (buildMessages_plain_text instructions input Hmode).
    apply notEmpty_true in Hnb. rewrite Hnb. reflexivity.
  - intros Hb.
    assert (~ looksStructured input) as Hno
        by (intros H; exact (looksStructured_not_blank _ H Hb)).
    rewrite (buildMessages_plain_text instructions input (or_introl Hno)).
    rewrite (blank_notEmpty _ Hb), app_nil_r. reflexivity.
Qed.

(** Where system and assistant turns come from: a system turn of the built
    sequence is the instructions' one or stands for a decoded message whose
    role is [system]; an assistant turn stands for a decoded message whose
    role is [assistant].  Plain text cannot make either. *)
Theorem turn_provenance (instructions input : string)
        (t : oai.ChatCompletionMessageParamUnion) :
  In t (openai.buildMessages instructions input) ->
  (oai.role t = oai.system ->
   fromInstructions instructions t \/ fromDecoded input "system" t)
  /\ (oai.role t = oai.assistant -> fromDecoded input "assistant" t).
Proof.
  intros Hin.
  assert (In t (systemTurn instructions) ->
          fromInstructions instructions t /\ oai.role t = oai.system) as Hsys.
  { unfold systemTurn, fromInstructions.
    destruct (notEmpty instructions) eqn:E; [|intros []].
    intros [<- | []]. apply notEmpty_true in E. repeat split; assumption. }
  destruct (mode_cases input) as [(Hb & msgs & Hd & Hne) | Hmode].
  - rewrite (buildMessages_multi_turn _ input msgs Hb Hd Hne) in Hin.
    apply in_app_or in Hin as [Hin | Hin].
    + destruct (Hsys Hin) as [Hf Hr]. split; [intros _; left; exact Hf|].
      rewrite Hr. discriminate.
    + apply in_map_iff in Hin as (msg & <- & Hmsg).
      unfold specTurn, fromDecoded.
      destruct (string_dec (json.Role msg) "system") as [Es | Ns];
        [|destruct (string_dec (json.Role msg) "assistant") as [Ea | Na]];
        cbn [oai.role oai.content]; split; intros Hr; try discriminate Hr.
      * right. split; [exact Hb|]. exists msgs, msg. repeat split; assumption.
      * split; [exact Hb|]. exists msgs, msg. repeat split; assumption.
  - rewrite (buildMessages_plain_text _ input Hmode) in Hin.
    apply in_app_or in Hin as [Hin | Hin].
    + destruct (Hsys Hin) as [Hf Hr]. split; [intros _; left; exact Hf|].
      rewrite Hr. discriminate.
    + destruct (notEmpty (strings.TrimSpace input)); [|destruct Hin].
      destruct Hin as [<- | []]. split; discriminate.
Qed.

Lemma turn_provenance_witness :
  (oai.role (oai.AssistantMessage "C") = oai.system ->
   fromInstructions "Be brief." (oai.AssistantMessage "C")
   \/ fromDecoded sample "system" (oai.AssistantMessage "C"))
  /\ (oai.role (oai.AssistantMessage "C") = oai.assistant ->
      fromDecoded sample "assistant" (oai.AssistantMessage "C")).
Proof.
  apply (turn_provenance "Be brief." sample (oai.AssistantMessage "C")).
  vm_compute. right. right. right. left. reflexivity.
Defined.

(** ** The decoder sees the input as it came *)

Ltac chars :=
  repeat match goal with
         | |- context [json.ch ?a] =>
             let v := eval vm_compute in (json.ch a) in
             change (json.ch a) with v
         end.

Ltac decide_eqb :=
  repeat match goal with
         | |- context [Z.eqb ?x ?k] =>
             destruct (Z.eqb_spec x k); [lia|]
         | |- context [Z.leb ?x ?k] =>
             destruct (Z.leb_spec x k); try lia
         end.

Lemma Unmarshal_foreign (input : string) (c : byte) (rest : list byte) :
  bytes_of_string input = c :: rest ->
  foreignToJSON c ->
  json.Unmarshal input = (json.zeroPayload, Some json.SyntaxError).
Proof.
  intros Hb Hc. unfold json.Unmarshal, json.parse. rewrite Hb.
  assert (json.skipSpace (c :: rest) = c :: rest) as ->.
  { cbn [json.skipSpace]. unfold json.isSpace. chars.
    destruct Hc as [-> | [-> | Hc]]; try reflexivity.
    destruct (Z.leb_spec c 32); [lia | reflexivity]. }
  cbn [json.value]. unfold json.literal, json.number, json.unsignedNumber.
  chars.
  destruct Hc as [-> | [-> | Hc]]; try reflexivity.
  decide_eqb; simpl; reflexivity.
Qed.

(** An input whose trimmed value starts with a brace, but whose first byte
    is white space that JSON does not know (a vertical tab, a form feed, a
    byte of a multi-byte space), fails to decode whatever follows, and is
    handled as plain text: the decoder is given the input untrimmed. *)
Theorem foreign_space_defeats_decoder (instructions input : string)
        (c : byte) (rest : list byte) :
  looksStructured input ->
  bytes_of_string input = c :: rest ->
  foreignToJSON c ->
  failsToDecode input
  /\ openai.buildMessages instructions input
     = systemTurn instructions ++ [oai.UserMessage input].
Proof.
  intros Hl Hb Hc.
  assert (failsToDecode input) as Hf.
  { eexists _, _. exact (Unmarshal_foreign input c rest Hb Hc). }
  split; [exact Hf|].
  rewrite (buildMessages_plain_text instructions input
             (or_intror (or_introl Hf))).
  rewrite (HasPrefix_brace_notEmpty _ Hl). reflexivity.
Qed.

Lemma foreign_space_defeats_decoder_witness :
  failsToDecode (String (ascii_of_nat 12) sample)
  /\ openai.buildMessages "" (String (ascii_of_nat 12) sample)
     = systemTurn "" ++ [oai.UserMessage (String (ascii_of_nat 12) sample)].
Proof.
  apply (foreign_space_defeats_decoder
           "" (String (ascii_of_nat 12) sample) 12
           (bytes_of_string sample)).
  - vm_compute. reflexivity.
  - vm_compute. reflexivity.
  - right. left. reflexivity.
Defined.

(** ** Structured payloads round-trip *)

Lemma ascii_of_byte_of_ascii (a : ascii) : ascii_of_byte (byte_of_ascii a) = a.
Proof.
  unfold ascii_of_byte, byte_of_ascii. rewrite N2Z.id.
  apply ascii_N_embedding.
Qed.

Lemma string_of_bytes_of_string (s : string) :
  string_of_bytes (bytes_of_string s) = s.
Proof.
  unfold string_of_bytes, bytes_of_string.
  induction s as [|a s IH]; [reflexivity|].
  simpl. rewrite ascii_of_byte_of_ascii. f_equal. exact IH.
Qed.

Lemma bytes_of_string_app (s1 s2 : string) :
  bytes_of_string (s1 ++ s2)%string = bytes_of_string s1 ++ bytes_of_string s2.
Proof.
  unfold bytes_of_string.
  induction s1 as [|a s1 IH]; [reflexivity|].
  simpl. f_equal. exact IH.
Qed.

Lemma plainByte_spec (c : byte) :
  plainByte c = true -> 32 <= c < 127 /\ c <> 34 /\ c <> 92.
Proof.
  unfold plainByte. rewrite !andb_true_iff, !negb_true_iff.
  intros [[[H1 H2] H3] H4].
  apply Z.leb_le in H1. apply Z.ltb_lt in H2.
  apply Z.eqb_neq in H3, H4. lia.
Qed.

Lemma stringLit_plain (bs tl : list byte) :
  forallb plainByte bs = true ->
  json.stringLit (bs ++ 34 :: tl) = Some (bs, tl).
Proof.
  induction bs as [|c bs IH]; intros H.
  - reflexivity.
  - cbn [forallb] in H. apply andb_prop in H as [Hc Hbs].
    apply plainByte_spec in Hc as (Hr & Hq & Hb).
    cbn [app json.stringLit]. chars.
    destruct (Z.eqb_spec c 34); [lia|].
    destruct (Z.eqb_spec c 92); [lia|].
    destruct (Z.ltb_spec c 32); [lia|].
    rewrite (IH Hbs). reflexivity.
Qed.

Lemma unquote_plain (bs : list byte) :
  forallb plainByte bs = true ->
  forall f, (List.length bs <= f)%nat -> json.unquote f bs = Some bs.
Proof.
  induction bs as [|c bs IH]; intros H f Hf.
  - destruct f; reflexivity.
  - cbn [forallb] in H. apply andb_prop in H as [Hc Hbs].
    apply plainByte_spec in Hc as (Hr & Hq & Hb).
    destruct f as [|f]; [simpl in Hf; lia|].
    cbn [json.unquote]. chars. unfold utf8.RuneSelf.
    destruct (Z.eqb_spec c 92); [lia|].
    destruct (Z.eqb_spec c 34); [lia|].
    destruct (Z.ltb_spec c 32); [lia|].
    destruct (Z.ltb_spec c 128); [|lia].
    cbn [orb]. rewrite (IH Hbs f ltac:(simpl in Hf; lia)). reflexivity.
Qed.

Lemma quoted_plain (s : string) (tl : list byte) :
  plainText s ->
  json.quoted (bytes_of_string s ++ 34 :: tl) = Some (s, tl).
Proof.
  intros H. unfold json.quoted.
  rewrite (stringLit_plain _ tl H), (unquote_plain _ H _ (le_n _)).
  rewrite string_of_bytes_of_string. reflexivity.
Qed.

Lemma bytes_encodeMessage (m : json.Message) (tl : list byte) :
  bytes_of_string (encodeMessage m) ++ tl = messageBytes m tl.
Proof.
  unfold encodeMessage, quoteString, messageBytes, dquote.
  repeat (rewrite ?bytes_of_string_app, <- ?app_assoc). reflexivity.
Qed.

Lemma bytes_joinComma (msgs : list json.Message) (tl : list byte) :
  msgs <> [] ->
  bytes_of_string (joinComma (List.map encodeMessage msgs)) ++ json.ch "]" :: tl
  = elementsBytes msgs tl.
Proof.
  induction msgs as [|m ms IH]; intros Hne; [contradiction|].
  destruct ms as [|m' ms].
  - cbn [List.map joinComma elementsBytes]. apply bytes_encodeMessage.
  - change (joinComma (List.map encodeMessage (m :: m' :: ms)))
      with (encodeMessage m ++ "," ++ joinComma (List.map encodeMessage (m' :: ms)))%string.
    change (elementsBytes (m :: m' :: ms) tl)
      with (messageBytes m (json.ch "," :: elementsBytes (m' :: ms) tl)).
    rewrite <- (IH ltac:(discriminate)).
    rewrite !bytes_of_string_app, <- !app_assoc.
    apply bytes_encodeMessage.
Qed.

Lemma bytes_encodePayload (msgs : list json.Message) (tl : list byte) :
  msgs <> [] ->
  bytes_of_string (encodePayload msgs) ++ tl = payloadBytes msgs tl.
Proof.
  intros Hne. unfold encodePayload, payloadBytes, quoteString, dquote.
  rewrite <- (bytes_joinComma msgs (json.ch "}" :: tl) Hne).
  repeat (rewrite ?bytes_of_string_app, <- ?app_assoc). reflexivity.
Qed.

Lemma plain_role : plainText "role".
Proof. reflexivity. Qed.

Lemma plain_content : plainText "content".
Proof. reflexivity. Qed.

Lemma plain_messages : plainText "messages".
Proof. reflexivity. Qed.

Local Opaque bytes_of_string json.quoted.

(** The scanner on one message object. *)
Lemma value_message (m : json.Message) (f : nat) (d : Z) (tl : list byte) :
  plainMessage m ->
  d < json.maxNestingDepth ->
  json.value (S (S (S (S f)))) d (messageBytes m tl) = Some (objectOf m, tl).
Proof.
  intros [Hr Hc] Hd. unfold messageBytes, objectOf.
  simpl.
  destruct (Z.ltb_spec json.maxNestingDepth (d + 1)); [lia|].
  rewrite (quoted_plain "role" _ plain_role). simpl.
  rewrite (quoted_plain (json.Role m) _ Hr). simpl.
  rewrite (quoted_plain "content" _ plain_content). simpl.
  rewrite (quoted_plain (json.Content m) _ Hc). simpl.
  reflexivity.
Qed.

Lemma value_message_fuel (m : json.Message) (X : nat) (d : Z) (tl : list byte) :
  plainMessage m ->
  d < json.maxNestingDepth ->
  (4 <= X)%nat ->
  json.value X d (messageBytes m tl) = Some (objectOf m, tl).
Proof.
  intros Hm Hd HX.
  do 4 (destruct X as [|X]; [lia|]).
  apply value_message; assumption.
Qed.

Lemma elements_lift (f : nat) (d : Z) (p : list byte) (r : list json.Value)
      (tl : list byte) :
  json.elements f d p = Some (r, tl) ->
  forall F, (List.length p <= F)%nat -> json.elements F d p = Some (r, tl).
Proof.
  intros H F HF. destruct (fuel_enough f) as (_ & _ & He).
  apply (He d p r tl H). lia.
Qed.

Lemma elementsBytes_head (msgs : list json.Message) (tl : list byte) :
  msgs <> [] -> exists rest, elementsBytes msgs tl = json.ch "{" :: rest.
Proof.
  destruct msgs as [|m [|m' ms]]; intros Hne; [contradiction| |];
    eexists; reflexivity.
Qed.

(** The scanner on the elements of the array, up to its closing bracket. *)
Lemma elements_messages (msgs : list json.Message) :
  msgs <> [] ->
  Forall plainMessage msgs ->
  forall (d : Z) (tl : list byte),
    d < json.maxNestingDepth ->
    exists f, json.elements f d (elementsBytes msgs tl)
              = Some (List.map objectOf msgs, tl).
Proof.
  induction msgs as [|m ms IH]; intros Hne Hall d tl Hd; [contradiction|].
  inversion Hall as [|? ? Hm Hms]; subst.
  destruct ms as [|m' ms].
  - exists 5%nat. cbn [elementsBytes json.elements].
    rewrite (value_message m 0 d _ Hm Hd). reflexivity.
  - destruct (IH ltac:(discriminate) Hms d tl Hd) as [f0 E0].
    pose proof (elements_lift _ _ _ _ _ E0) as Lift.
    destruct (elementsBytes_head (m' :: ms) tl ltac:(discriminate))
      as [rest' Hhead].
    change (elementsBytes (m :: m' :: ms) tl)
      with (messageBytes m (json.ch "," :: elementsBytes (m' :: ms) tl)).
    remember (elementsBytes (m' :: ms) tl) as rest eqn:Hrest.
    assert (json.skipSpace rest = rest) as Hskip
        by (rewrite Hhead; reflexivity).
    remember (4 + List.length rest)%nat as X eqn:HX.
    exists (S X). cbn [json.elements].
    rewrite (value_message_fuel m X d _ Hm Hd ltac:(lia)).
    change (json.skipSpace (json.ch "," :: rest)) with (json.ch "," :: rest).
    cbv iota beta.
    change (json.ch "," =? json.ch "]") with false.
    change (json.ch "," =? json.ch ",") with true.
    cbv iota. rewrite Hskip, (Lift X ltac:(lia)). reflexivity.
Qed.

Ltac closed_tests :=
  repeat match goal with
         | |- context [Z.eqb ?a ?b] =>
             let v := eval vm_compute in (Z.eqb a b) in
             lazymatch v with
             | true => change (Z.eqb a b) with true
             | false => change (Z.eqb a b) with false
             end
         | |- context [Z.ltb ?a ?b] =>
             let v := eval vm_compute in (Z.ltb a b) in
             lazymatch v with
             | true => change (Z.ltb a b) with true
             | false => change (Z.ltb a b) with false
             end
         end.

Ltac skip_tokens :=
  repeat match goal with
         | |- context [json.skipSpace (?c :: ?p)] =>
             change (json.skipSpace (c :: p)) with (c :: p)
         end.

Ltac scan := repeat (progress (skip_tokens; closed_tests; cbn [negb]; cbv iota beta)).

(** The scanner on the whole payload. *)
Lemma value_payload (msgs : list json.Message) (tl : list byte) :
  msgs <> [] ->
  Forall plainMessage msgs ->
  exists f, json.value f 0 (payloadBytes msgs tl)
            = Some (json.JObject
                      [("messages", json.JArray (List.map objectOf msgs))], tl).
Proof.
  intros Hne Hall.
  destruct (elements_messages msgs Hne Hall 2 (json.ch "}" :: tl)
                              ltac:(reflexivity)) as [f0 E0].
  pose proof (elements_lift _ _ _ _ _ E0) as Lift.
  destruct (elementsBytes_head msgs (json.ch "}" :: tl) Hne) as [rest' Hhead].
  unfold payloadBytes.
  remember (elementsBytes msgs (json.ch "}" :: tl)) as rest eqn:Hrest.
  remember (List.length rest) as X eqn:HX.
  exists (S (S (S X))).
  cbn [json.value json.members]. scan.
  rewrite (quoted_plain "messages" _ plain_messages). scan.
  assert (json.skipSpace rest = rest) as ->
      by (rewrite Hhead; reflexivity).
  rewrite Hhead at 1. scan. rewrite <- Hhead.
  change (0 + 1 + 1) with 2.
  rewrite (Lift X ltac:(lia)). scan.
  reflexivity.
Qed.

Lemma isSpace_cases (c : byte) :
  json.isSpace c = true -> c = 32 \/ c = 9 \/ c = 13 \/ c = 10.
Proof.
  unfold json.isSpace. chars. intros H.
  apply andb_prop in H as [_ H].
  rewrite !orb_true_iff, !Z.eqb_eq in H. tauto.
Qed.

Lemma skipSpace_app (ws p : list byte) :
  forallb json.isSpace ws = true ->
  json.skipSpace (ws ++ p) = json.skipSpace p.
Proof.
  induction ws as [|c ws IH]; intros H; [reflexivity|].
  cbn [forallb] in H. apply andb_prop in H as [Hc Hws].
  cbn [app json.skipSpace]. rewrite Hc. exact (IH Hws).
Qed.

Lemma skipSpace_blank (ws : list byte) :
  forallb json.isSpace ws = true -> json.skipSpace ws = [].
Proof.
  intros H. rewrite <- (app_nil_r ws), (skipSpace_app ws [] H). reflexivity.
Qed.

Lemma parse_payload (before after : string) (msgs : list json.Message) :
  jsonBlank before ->
  jsonBlank after ->
  msgs <> [] ->
  Forall plainMessage msgs ->
  json.parse (before ++ encodePayload msgs ++ after)%string
  = Some (json.JObject [("messages", json.JArray (List.map objectOf msgs))]).
Proof.
  intros Hb Ha Hne Hall. unfold json.parse.
  rewrite !bytes_of_string_app, (bytes_encodePayload msgs _ Hne).
  rewrite (skipSpace_app _ _ Hb).
  destruct (value_payload msgs (bytes_of_string after) Hne Hall) as [f E].
  assert (json.skipSpace (payloadBytes msgs (bytes_of_string after))
          = payloadBytes msgs (bytes_of_string after)) as Hskip
      by reflexivity.
  rewrite Hskip.
  pose proof (proj2 (proj1 (fuel_enough f) _ _ _ _ E)) as Lift.
  rewrite (Lift (S (List.length (bytes_of_string before
                                  ++ payloadBytes msgs (bytes_of_string after))))).
  - rewrite (skipSpace_blank _ Ha). reflexivity.
  - rewrite length_app. lia.
Qed.

Local Transparent bytes_of_string json.quoted.

Lemma storeMessage_objectOf (m : json.Message) (saved : option json.Error) :
  json.storeMessage json.zeroMessage (objectOf m) saved = (m, saved).
Proof. destruct m as [r c]. reflexivity. Qed.

Lemma storeElems_objectOf (msgs : list json.Message) :
  json.storeElems [] (List.map objectOf msgs) None = (msgs, None).
Proof.
  induction msgs as [|m ms IH]; [reflexivity|].
  cbn [List.map json.storeElems].
  rewrite storeMessage_objectOf, IH. reflexivity.
Qed.

(** The text written for a list of plain messages, with JSON white space
    around it, decodes to that list. *)
Lemma Unmarshal_encodePayload (before after : string)
      (msgs : list json.Message) :
  jsonBlank before ->
  jsonBlank after ->
  msgs <> [] ->
  Forall plainMessage msgs ->
  decodesTo (before ++ encodePayload msgs ++ after)%string msgs.
Proof.
  intros Hb Ha Hne Hall. unfold decodesTo, json.Unmarshal.
  rewrite (parse_payload before after msgs Hb Ha Hne Hall).
  cbn [json.storePayload List.fold_left json.storePayloadField fst snd].
  change (json.selects "messages" "messages") with true. cbv iota.
  unfold json.storeMessages.
  destruct msgs as [|m ms]; [contradiction|].
  cbn [List.map json.nilSlice json.elems json.spare app].
  change (json.storeElems [] (objectOf m :: List.map objectOf ms) None)
    with (json.storeElems [] (List.map objectOf (m :: ms)) None).
  rewrite storeElems_objectOf.
  cbn [json.elems]. rewrite firstn_all2; [reflexivity|].
  simpl. rewrite length_map. lia.
Qed.

(** ** White space around a payload *)

Lemma trimLeftSpace_blank (ws p : list byte) :
  forallb json.isSpace ws = true ->
  strings.trimLeftSpace (List.length (ws ++ p)) (ws ++ p)
  = strings.trimLeftSpace (List.length p) p.
Proof.
  induction ws as [|c ws IH]; intros H; [reflexivity|].
  cbn [forallb] in H. apply andb_prop in H as [Hc Hws].
  cbn [app List.length strings.trimLeftSpace].
  assert (utf8.DecodeRune (c :: ws ++ p) = (c, 1)) as ->.
  { unfold utf8.DecodeRune.
    replace (len (c :: ws ++ p) <? 1) with false
      by (symmetry; apply Z.ltb_ge; unfold len; simpl List.length; lia).
    destruct (isSpace_cases c Hc) as [-> | [-> | [-> | ->]]]; reflexivity. }
  assert (unicode.IsSpace c = true) as ->
      by (destruct (isSpace_cases c Hc) as [-> | [-> | [-> | ->]]];
          reflexivity).
  exact (IH Hws).
Qed.

Lemma trimLeftSpace_stops (c : byte) (p : list byte) :
  0 <= c < 128 ->
  unicode.IsSpace c = false ->
  strings.trimLeftSpace (List.length (c :: p)) (c :: p) = c :: p.
Proof.
  intros Hc Hs. cbn [List.length strings.trimLeftSpace].
  assert (utf8.DecodeRune (c :: p) = (c, 1)) as ->.
  { unfold utf8.DecodeRune.
    replace (len (c :: p) <? 1) with false
      by (symmetry; apply Z.ltb_ge; unfold len; simpl List.length; lia).
    change (at_index (c :: p) 0) with c. unfold utf8.first.
    destruct (Z.ltb_spec c 128); [reflexivity | lia]. }
  rewrite Hs. reflexivity.
Qed.

Lemma DecodeLastRune_ascii (p : list byte) (c : byte) :
  0 <= c < 128 -> utf8.DecodeLastRune (p ++ [c]) = (c, 1).
Proof.
  intros Hc. unfold utf8.DecodeLastRune.
  assert (len (p ++ [c]) = Z.of_nat (List.length p) + 1) as Hlen
      by (unfold len; rewrite length_app; simpl; lia).
  replace (len (p ++ [c]) =? 0) with false
    by (symmetry; apply Z.eqb_neq; lia).
  assert (at_index (p ++ [c]) (len (p ++ [c]) - 1) = c) as ->.
  { unfold at_index.
    replace (len (p ++ [c]) - 1 <? 0) with false
      by (symmetry; apply Z.ltb_ge; lia).
    replace (Z.to_nat (len (p ++ [c]) - 1)) with (List.length p) by lia.
    apply nth_middle. }
  unfold utf8.RuneSelf.
  destruct (Z.ltb_spec c 128); [reflexivity | lia].
Qed.

Lemma trimRightSpace_blank (p ws : list byte) :
  forallb json.isSpace ws = true ->
  strings.trimRightSpace (List.length (p ++ ws)) (p ++ ws)
  = strings.trimRightSpace (List.length p) p.
Proof.
  induction ws as [|c ws IH] using rev_ind; intros H.
  - rewrite app_nil_r. reflexivity.
  - rewrite forallb_app in H. apply andb_prop in H as [Hws Hc].
    cbn [forallb] in Hc. rewrite andb_true_r in Hc.
    rewrite app_assoc.
    remember (p ++ ws) as q eqn:Hq.
    replace (List.length (q ++ [c])) with (S (List.length q))
      by (rewrite length_app; simpl; lia).
    destruct (q ++ [c]) as [|x q'] eqn:Eq;
      [destruct q; discriminate Eq|].
    cbn [strings.trimRightSpace]. rewrite <- Eq.
    rewrite (DecodeLastRune_ascii q c)
      by (destruct (isSpace_cases c Hc) as [-> | [-> | [-> | ->]]]; lia).
    assert (unicode.IsSpace c = true) as ->
        by (destruct (isSpace_cases c Hc) as [-> | [-> | [-> | ->]]];
            reflexivity).
    assert (slice_to (q ++ [c]) (len (q ++ [c]) - 1) = q) as ->.
    { unfold slice_to, len. rewrite length_app. simpl List.length.
      replace (Z.to_nat (Z.of_nat (List.length q + 1) - 1))
        with (List.length q + 0)%nat by lia.
      rewrite firstn_app_2. simpl. apply app_nil_r. }
    subst q. exact (IH Hws).
Qed.

Lemma trimRightSpace_stops (p : list byte) (c : byte) :
  0 <= c < 128 ->
  unicode.IsSpace c = false ->
  strings.trimRightSpace (List.length (p ++ [c])) (p ++ [c]) = p ++ [c].
Proof.
  intros Hc Hs.
  replace (List.length (p ++ [c])) with (S (List.length p))
    by (rewrite length_app; simpl; lia).
  destruct (p ++ [c]) as [|x q'] eqn:Eq; [destruct p; discriminate Eq|].
  cbn [strings.trimRightSpace]. rewrite <- Eq.
  rewrite (DecodeLastRune_ascii p c Hc), Hs. reflexivity.
Qed.

(** Trimming a text that starts and ends with ASCII other than white space,
    with JSON white space around it, leaves that text. *)
Lemma TrimSpace_tight (before s after : string) (o c : byte)
      (bs : list byte) :
  jsonBlank before ->
  jsonBlank after ->
  bytes_of_string s = o :: bs ++ [c] ->
  0 <= o < 128 -> unicode.IsSpace o = false ->
  0 <= c < 128 -> unicode.IsSpace c = false ->
  strings.TrimSpace (before ++ s ++ after)%string = s.
Proof.
  intros Hbefore Hafter Hb Ho Hos Hc Hcs. unfold strings.TrimSpace. cbv zeta.
  rewrite !bytes_of_string_app, Hb.
  rewrite (trimLeftSpace_blank _ _ Hbefore).
  change ((o :: bs ++ [c]) ++ bytes_of_string after)
    with (o :: (bs ++ [c]) ++ bytes_of_string after).
  rewrite (trimLeftSpace_stops o _ Ho Hos).
  change (o :: (bs ++ [c]) ++ bytes_of_string after)
    with ((o :: bs ++ [c]) ++ bytes_of_string after).
  rewrite (trimRightSpace_blank _ _ Hafter).
  change (o :: bs ++ [c]) with ((o :: bs) ++ [c]).
  rewrite (trimRightSpace_stops _ c Hc Hcs).
  change ((o :: bs) ++ [c]) with (o :: bs ++ [c]).
  rewrite <- Hb. apply string_of_bytes_of_string.
Qed.

Lemma encodePayload_braced (msgs : list json.Message) :
  exists bs, bytes_of_string (encodePayload msgs) = 123 :: bs ++ [125].
Proof.
  unfold encodePayload.
  exists (bytes_of_string (quoteString "messages") ++ bytes_of_string ":["
          ++ bytes_of_string (joinComma (List.map encodeMessage msgs)) ++ [93]).
  rewrite !bytes_of_string_app, <- !app_assoc. reflexivity.
Qed.

Lemma encodePayload_looksStructured (before after : string)
      (msgs : list json.Message) :
  jsonBlank before ->
  jsonBlank after ->
  looksStructured (before ++ encodePayload msgs ++ after)%string.
Proof.
  intros Hb Ha. unfold looksStructured.
  destruct (encodePayload_braced msgs) as [bs Hbs].
  rewrite (TrimSpace_tight before _ after 123 125 bs Hb Ha Hbs);
    [reflexivity | lia | reflexivity | lia | reflexivity].
Qed.

(** A flow that writes a non-empty list of plain messages as the JSON text
    [{"messages":[{"role":...,"content":...},...]}], with or without JSON
    white space (spaces, tabs, carriage returns, line feeds) before and
    after it, gets exactly these messages as turns, by the three-way role
    mapping, after what the instructions give. *)
Theorem structured_payload_expands (instructions before after : string)
        (msgs : list json.Message) :
  jsonBlank before ->
  jsonBlank after ->
  msgs <> [] ->
  Forall plainMessage msgs ->
  let input := (before ++ encodePayload msgs ++ after)%string in
  looksStructured input
  /\ decodesTo input msgs
  /\ openai.buildMessages instructions input
     = systemTurn instructions ++ List.map specTurn msgs.
Proof.
  intros Hb Ha Hne Hall input.
  pose proof (encodePayload_looksStructured before after msgs Hb Ha) as Hl.
  pose proof (Unmarshal_encodePayload before after msgs Hb Ha Hne Hall) as Hd.
  split; [exact Hl|]. split; [exact Hd|].
  exact (buildMessages_multi_turn instructions _ msgs Hl Hd Hne).
Qed.

Lemma structured_payload_expands_witness :
  let input := (" " ++ encodePayload sampleMessages
                    ++ String (ascii_of_nat 10) "")%string in
  looksStructured input
  /\ decodesTo input sampleMessages
  /\ openai.buildMessages "Be brief." input
     = systemTurn "Be brief." ++ List.map specTurn sampleMessages.
Proof.
  apply (structured_payload_expands
           "Be brief." " " (String (ascii_of_nat 10) "") sampleMessages).
  - reflexivity.
  - reflexivity.
  - discriminate.
  - repeat constructor.
Defined.

Lemma encodePayload_sample : encodePayload sampleMessages = sample.
Proof. vm_compute. reflexivity. Qed.

(** On an input that is not blank and not in multi-turn mode, the two
    revisions send the same request and return the same result, for the
    same endpoint, client and model. *)
Theorem revisions_respond_alike (endpoint : Endpoint) (client : oai.Client)
        (model instructions input : string) (maxTokens : Z) :
  ~ blank input ->
  ~ looksStructured input \/ failsToDecode input \/ decodesTo input [] ->
  request model instructions input maxTokens
  = request_basic model instructions input maxTokens
  /\ openai.Response endpoint
       {| openai.client := client; openai.model := model |}
       instructions input maxTokens
     = openai_basic.Response endpoint
         {| openai_basic.client := client; openai_basic.model := model |}
         instructions input maxTokens.
Proof.
  intros Hnb Hmode.
  assert (openai.buildMessages instructions input
          = openai_basic.buildMessages instructions input) as E.
  { rewrite (buildMessages_plain_text instructions input Hmode).
    apply notEmpty_true in Hnb. rewrite Hnb.
    unfold openai_basic.buildMessages, systemTurn.
    destruct (notEmpty instructions);
      destruct (notEmpty (strings.TrimSpace input)
                && strings.HasPrefix (strings.TrimSpace input) "{");
      reflexivity. }
  unfold request, request_basic, openai.Response, openai_basic.Response.
  cbn [openai.client openai.model openai_basic.client openai_basic.model].
  rewrite E. split; reflexivity.
Qed.

Lemma revisions_respond_alike_witness :
  let endpoint : Endpoint :=
    fun _ r => Completed {| oai.Choices := [];
                            oai.Usage := {| oai.TotalTokens :=
                                              oai.MaxTokens r |} |} in
  request "gpt-4o" "Be brief." "hello" 64
  = request_basic "gpt-4o" "Be brief." "hello" 64
  /\ openai.Response endpoint
       {| openai.client := oai.NewClient []; openai.model := "gpt-4o" |}
       "Be brief." "hello" 64
     = openai_basic.Response endpoint
         {| openai_basic.client := oai.NewClient [];
            openai_basic.model := "gpt-4o" |}
         "Be brief." "hello" 64.
Proof.
  cbv zeta.
  apply (revisions_respond_alike _ (oai.NewClient []) "gpt-4o" "Be brief."
                                 "hello" 64).
  - vm_compute. discriminate.
  - left. vm_compute. discriminate.
Defined.
